(** * Yank.states: thermodynamic states over an OpenMM system

    A shallow embedding of [Yank/states.py].

    - Python objects (systems, [ThermodynamicState]s) live in a store
      and are handled through their addresses, so that the deep copies
      the module takes, and the aliasing between a state, the system it
      owns and the forces of that system, are visible in the model.
    - A method is a computation in a state-and-exception monad over the
      store; an exception leaves the store as it was when it was raised.
    - A quantity is the integer magnitude of a [simtk.unit.Quantity];
      what the module does with quantities is to store them and to
      compare them with [==].
    - OpenMM is not part of the repository: what the module calls of it
      is a record, [OpenMM], over which every property is stated. *)

From Stdlib Require Import Ascii.
From stdpp Require Import gmap strings list pretty.

Open Scope Z_scope.

(** ** Strings *)

(** Python's [needle in hay] on strings. *)
Fixpoint contains (needle hay : string) : bool :=
  String.prefix needle hay ||
  match hay with
  | EmptyString => false
  | String _ rest => contains needle rest
  end.

(** [template.format( *args )] for templates whose replacement fields are
    all the automatic field [{}]; a field with no argument left raises
    [IndexError] in Python, here [None]. *)
Fixpoint format (template : string) (args : list string) : option string :=
  match template with
  | EmptyString => Some EmptyString
  | String c rest =>
      match c, rest with
      | "{"%char, String "}"%char rest' =>
          match args with
          | a :: args' => String.append a <$> format rest' args'
          | [] => None
          end
      | _, _ => String c <$> format rest args
      end
  end.

(** ** OpenMM objects *)

(** A physical quantity, by its magnitude in the unit system of the
    caller (kelvin, atmosphere); [==] on quantities is equality. *)
Definition Quantity := Z.

(** [openmm.NonbondedForce]'s nonbonded methods. *)
Inductive NonbondedMethod :=
| NoCutoff | CutoffNonPeriodic | CutoffPeriodic | Ewald | PME.

#[global] Instance NonbondedMethod_eq_dec : EqDecision NonbondedMethod.
Proof. solve_decision. Defined.

(** A force of a system.  The module looks at a force through its
    class name, through the barostat accessors and through
    [NonbondedForce.getNonbondedMethod]; every other force is known by
    its class name and carries its parameters as they are serialized. *)
Inductive Force :=
| MonteCarloBarostat (defaultPressure temperature : Quantity) (frequency : Z)
| NonbondedForce (nonbondedMethod : NonbondedMethod) (parameters : string)
| OtherForce (name : string) (periodic : bool) (parameters : string).

#[global] Instance Force_eq_dec : EqDecision Force.
Proof. solve_decision. Defined.

(** [force.__class__.__name__] *)
Definition class_name (f : Force) : string :=
  match f with
  | MonteCarloBarostat _ _ _ => "MonteCarloBarostat"
  | NonbondedForce _ _ => "NonbondedForce"
  | OtherForce name _ _ => name
  end.

(** [openmm.System]: its forces in order, and what else it holds. *)
Record System := mkSystem {
  forces : list Force;
  particle_masses : list Quantity;
  box_vectors : list (list Quantity)
}.

#[global] Instance System_eq_dec : EqDecision System.
Proof. solve_decision. Defined.

Definition with_forces (s : System) (fs : list Force) : System :=
  {| forces := fs; particle_masses := particle_masses s;
     box_vectors := box_vectors s |}.

(** An integrator: [getTemperature] exists on the thermostatted ones
    only; a [CompoundIntegrator] holds sub-integrators and the index of
    the current one. *)
Inductive Integrator :=
| SimpleIntegrator (name : string) (heat_bath : option Quantity)
| CompoundIntegrator (integrators : list Integrator) (current : nat).

(** What this module takes from the installed OpenMM, which is not part
    of the repository: whether the barostat has the accessors of
    OpenMM 7.1 ([getDefaultTemperature], [setDefaultTemperature]) or
    those of the versions before ([getTemperature], [setTemperature]);
    [System.usesPeriodicBoundaryConditions]; [XmlSerializer.serialize];
    and [str.__hash__]. *)
Record OpenMM := mkOpenMM {
  has_default_temperature : bool;
  uses_pbc : System → bool;
  xml_serialize : System → string;
  str_hash : string → Z
}.

(** ** Exceptions *)

Inductive ErrorCode :=
| MULTIPLE_BAROSTATS
| UNSUPPORTED_BAROSTAT
| INCONSISTENT_BAROSTAT
| BAROSTATED_NONPERIODIC
| INCONSISTENT_INTEGRATOR.

#[global] Instance ErrorCode_eq_dec : EqDecision ErrorCode.
Proof. solve_decision. Defined.

(** The codes are [range(5)]. *)
Definition code_value (c : ErrorCode) : Z :=
  match c with
  | MULTIPLE_BAROSTATS => 0
  | UNSUPPORTED_BAROSTAT => 1
  | INCONSISTENT_BAROSTAT => 2
  | BAROSTATED_NONPERIODIC => 3
  | INCONSISTENT_INTEGRATOR => 4
  end.

Definition error_messages (c : ErrorCode) : string :=
  match c with
  | MULTIPLE_BAROSTATS => "System has multiple barostats."
  | UNSUPPORTED_BAROSTAT => "Found unsupported barostat {} in system."
  | INCONSISTENT_BAROSTAT =>
      "System barostat is inconsistent with thermodynamic state."
  | BAROSTATED_NONPERIODIC => "Non-periodic systems cannot have a barostat."
  | INCONSISTENT_INTEGRATOR =>
      "Integrator is coupled to a heat bath at a different temperature."
  end.

(** The exceptions a method of the module can end with.
    [DanglingReference] has no Python counterpart: it is the read of an
    address the store does not hold, which no Python program performs. *)
Inductive Exception :=
| ThermodynamicsError (code : ErrorCode) (message : string)
| AttributeError
| IndexError
| OpenMMException
| DanglingReference.

#[global] Instance Exception_eq_dec : EqDecision Exception.
Proof. solve_decision. Defined.

(** ** The store *)

Definition loc := nat.

(** The fields of a [ThermodynamicState] object. *)
Record ThermodynamicState := mkState {
  _system : loc;
  _temperature : Quantity;
  _cached_standard_system_hash : option Z
}.

Record Store := mkStore {
  systems : gmap nat System;
  states : gmap nat ThermodynamicState
}.

(** A force handed out by [System.getForce]: it stays part of its
    system, and a setter called on it changes that system. *)
Record ForceRef := mkForceRef { fr_system : loc; fr_index : nat }.

(** [openmm.Context(system, integrator[, platform])] *)
Record Context := mkContext {
  ctx_system : loc;
  ctx_integrator : Integrator;
  ctx_platform : option string
}.

(** ** The monad *)

Inductive Outcome (A : Type) :=
| Return (a : A)
| Raise (e : Exception).
Arguments Return {A} a.
Arguments Raise {A} e.

Definition M (A : Type) : Type := Store → Outcome A * Store.

Definition ret {A} (a : A) : M A := λ σ, (Return a, σ).
Definition raise {A} (e : Exception) : M A := λ σ, (Raise e, σ).
Definition bind {A B} (m : M A) (k : A → M B) : M B :=
  λ σ, match m σ with
       | (Return a, σ') => k a σ'
       | (Raise e, σ') => (Raise e, σ')
       end.

Notation "x <- m ;; k" := (bind m (λ x, k))
  (at level 100, m at next level, right associativity).
Notation "m ;;; k" := (bind m (λ _, k))
  (at level 100, right associativity).

(** [try: body / except AttributeError: handler] *)
Definition try_except_AttributeError {A} (body handler : M A) : M A :=
  λ σ, match body σ with
       | (Raise AttributeError, σ') => handler σ'
       | r => r
       end.

(** [raise ThermodynamicsError(code, *args)] *)
Definition raise_ThermodynamicsError {A} (code : ErrorCode)
    (args : list string) : M A :=
  match format (error_messages code) args with
  | Some message => raise (ThermodynamicsError code message)
  | None => raise IndexError
  end.

(** [for x in l: body(x)] *)
Fixpoint for_each {A} (l : list A) (body : A → M unit) : M unit :=
  match l with
  | [] => ret tt
  | x :: l' => body x ;;; for_each l' body
  end.

(** [enumerate(l, start)] *)
Fixpoint enumerate_from {A} (start : nat) (l : list A) : list (nat * A) :=
  match l with
  | [] => []
  | x :: l' => (start, x) :: enumerate_from (S start) l'
  end.

Definition enumerate {A} (l : list A) : list (nat * A) := enumerate_from 0 l.

(** *** Objects in the store *)

Definition read_system (l : loc) : M System :=
  λ σ, match systems σ !! l with
       | Some s => (Return s, σ)
       | None => (Raise DanglingReference, σ)
       end.

Definition write_system (l : loc) (s : System) : M unit :=
  λ σ, (Return tt, mkStore (<[l:=s]> (systems σ)) (states σ)).

Definition new_system (s : System) : M loc :=
  λ σ, let l := fresh (dom (systems σ)) in
       (Return l, mkStore (<[l:=s]> (systems σ)) (states σ)).

Definition read_state (l : loc) : M ThermodynamicState :=
  λ σ, match states σ !! l with
       | Some st => (Return st, σ)
       | None => (Raise DanglingReference, σ)
       end.

Definition write_state (l : loc) (st : ThermodynamicState) : M unit :=
  λ σ, (Return tt, mkStore (systems σ) (<[l:=st]> (states σ))).

Definition new_state (st : ThermodynamicState) : M loc :=
  λ σ, let l := fresh (dom (states σ)) in
       (Return l, mkStore (systems σ) (<[l:=st]> (states σ))).

(** [copy.deepcopy(system)] *)
Definition deepcopy (system : loc) : M loc :=
  s <- read_system system ;; new_system s.

(** ** The OpenMM interface the module calls *)

Section WithOpenMM.

Variable omm : OpenMM.

Definition getForces (system : loc) : M (list Force) :=
  s <- read_system system ;; ret (forces s).

Definition getForce (system : loc) (index : nat) : M ForceRef :=
  s <- read_system system ;;
  match forces s !! index with
  | Some _ => ret (mkForceRef system index)
  | None => raise OpenMMException
  end.

Definition removeForce (system : loc) (index : nat) : M unit :=
  s <- read_system system ;;
  match forces s !! index with
  | Some _ => write_system system (with_forces s (delete index (forces s)))
  | None => raise OpenMMException
  end.

Definition addForce (system : loc) (force : Force) : M nat :=
  s <- read_system system ;;
  write_system system (with_forces s (forces s ++ [force])) ;;;
  ret (length (forces s)).

Definition usesPeriodicBoundaryConditions (system : loc) : M bool :=
  s <- read_system system ;; ret (uses_pbc omm s).

(** The force a reference stands for. *)
Definition deref (force : ForceRef) : M Force :=
  s <- read_system (fr_system force) ;;
  match forces s !! fr_index force with
  | Some f => ret f
  | None => raise DanglingReference
  end.

(** A setter of a force writes into the system that holds the force. *)
Definition update (force : ForceRef) (f : Force) : M unit :=
  s <- read_system (fr_system force) ;;
  write_system (fr_system force)
    (with_forces s (<[fr_index force := f]> (forces s))).

Definition getDefaultPressure (barostat : ForceRef) : M Quantity :=
  f <- deref barostat ;;
  match f with
  | MonteCarloBarostat p _ _ => ret p
  | _ => raise AttributeError
  end.

Definition setDefaultPressure (barostat : ForceRef) (value : Quantity)
    : M unit :=
  f <- deref barostat ;;
  match f with
  | MonteCarloBarostat _ t n => update barostat (MonteCarloBarostat value t n)
  | _ => raise AttributeError
  end.

(** The accessors of the barostat temperature: the pair of OpenMM 7.1,
    and the pair of the versions before it. *)
Definition getDefaultTemperature (barostat : ForceRef) : M Quantity :=
  f <- deref barostat ;;
  match f with
  | MonteCarloBarostat _ t _ =>
      if has_default_temperature omm then ret t else raise AttributeError
  | _ => raise AttributeError
  end.

Definition getTemperature (barostat : ForceRef) : M Quantity :=
  f <- deref barostat ;;
  match f with
  | MonteCarloBarostat _ t _ =>
      if has_default_temperature omm then raise AttributeError else ret t
  | _ => raise AttributeError
  end.

Definition setDefaultTemperature (barostat : ForceRef) (value : Quantity)
    : M unit :=
  f <- deref barostat ;;
  match f with
  | MonteCarloBarostat p _ n =>
      if has_default_temperature omm
      then update barostat (MonteCarloBarostat p value n)
      else raise AttributeError
  | _ => raise AttributeError
  end.

Definition setTemperature (barostat : ForceRef) (value : Quantity)
    : M unit :=
  f <- deref barostat ;;
  match f with
  | MonteCarloBarostat p _ n =>
      if has_default_temperature omm
      then raise AttributeError
      else update barostat (MonteCarloBarostat p value n)
  | _ => raise AttributeError
  end.

(** [integrator.getTemperature()] *)
Definition integrator_getTemperature (integrator : Integrator) : M Quantity :=
  match integrator with
  | SimpleIntegrator _ (Some t) => ret t
  | _ => raise AttributeError
  end.

(** [integrator.getIntegrator(integrator.getCurrentIntegrator())] *)
Definition getIntegrator (integrator : Integrator) (index : nat)
    : M Integrator :=
  match integrator with
  | CompoundIntegrator integrators _ =>
      match integrators !! index with
      | Some i => ret i
      | None => raise OpenMMException
      end
  | _ => raise AttributeError
  end.

Definition getCurrentIntegrator (integrator : Integrator) : M nat :=
  match integrator with
  | CompoundIntegrator _ current => ret current
  | _ => raise AttributeError
  end.

(** ** ThermodynamicState *)

Definition _NONPERIODIC_NONBONDED_METHODS : list NonbondedMethod :=
  [NoCutoff; CutoffNonPeriodic].

Definition _SUPPORTED_BAROSTATS : list string := ["MonteCarloBarostat"%string].

(** The frequency [openmm.MonteCarloBarostat(pressure, temperature)]
    takes when none is given. *)
Definition default_frequency : Z := 25.

Definition barostat_ids (fs : list Force) : list nat :=
  (List.filter (λ '(i, force), contains "Barostat" (class_name force))
     (enumerate fs)).*1.

Definition _find_barostat_index (system : loc) : M (option nat) :=
  fs <- getForces system ;;
  let barostat_ids := barostat_ids fs in
  if Nat.eqb (length barostat_ids) 0 then ret None
  else if Nat.ltb 1 (length barostat_ids)
  then raise_ThermodynamicsError MULTIPLE_BAROSTATS []
  else match barostat_ids !! 0%nat with
       | Some i => ret (Some i)
       | None => raise IndexError
       end.

Definition _find_barostat (system : loc) : M (option ForceRef) :=
  barostat_id <- _find_barostat_index system ;;
  match barostat_id with
  | None => ret None
  | Some i =>
      barostat <- getForce system i ;;
      f <- deref barostat ;;
      if negb (bool_decide (class_name f ∈ _SUPPORTED_BAROSTATS))
      then raise_ThermodynamicsError UNSUPPORTED_BAROSTAT [class_name f]
      else ret (Some barostat)
  end.

Definition _barostat (self : loc) : M (option ForceRef) :=
  st <- read_state self ;; _find_barostat (_system st).

Definition get_temperature (self : loc) : M Quantity :=
  st <- read_state self ;; ret (_temperature st).

Definition set_temperature (self : loc) (value : Quantity) : M unit :=
  st <- read_state self ;;
  write_state self
    (mkState (_system st) value (_cached_standard_system_hash st)) ;;;
  barostat <- _barostat self ;;
  match barostat with
  | Some b =>
      try_except_AttributeError
        (setDefaultTemperature b value) (setTemperature b value)
  | None => ret tt
  end.

Definition get_pressure (self : loc) : M (option Quantity) :=
  barostat <- _barostat self ;;
  match barostat with
  | None => ret None
  | Some b => p <- getDefaultPressure b ;; ret (Some p)
  end.

Definition set_pressure (self : loc) (value : option Quantity) : M unit :=
  st <- read_state self ;;
  match value with
  | None =>
      barostat_id <- _find_barostat_index (_system st) ;;
      match barostat_id with
      | Some i => removeForce (_system st) i
      | None => ret tt
      end
  | Some v =>
      periodic <- usesPeriodicBoundaryConditions (_system st) ;;
      if negb periodic
      then raise_ThermodynamicsError BAROSTATED_NONPERIODIC []
      else
        barostat <- _barostat self ;;
        match barostat with
        | None =>
            addForce (_system st) (MonteCarloBarostat v (_temperature st)
                                     default_frequency) ;;;
            ret tt
        | Some b => setDefaultPressure b v
        end
  end.

Definition _is_barostat_consistent (self : loc) (barostat : ForceRef)
    : M bool :=
  barostat_temperature <-
    try_except_AttributeError
      (getDefaultTemperature barostat) (getTemperature barostat) ;;
  barostat_pressure <- getDefaultPressure barostat ;;
  temperature <- get_temperature self ;;
  if bool_decide (barostat_temperature = temperature)
  then pressure <- get_pressure self ;;
       ret (bool_decide (Some barostat_pressure = pressure))
  else ret false.

Definition _check_system_consistency (self : loc) (system : loc) : M unit :=
  barostat <- _find_barostat system ;;
  match barostat with
  | None => ret tt
  | Some b =>
      consistent <- _is_barostat_consistent self b ;;
      if negb consistent
      then raise_ThermodynamicsError INCONSISTENT_BAROSTAT []
      else
        fs <- getForces system ;;
        for_each fs (λ force,
          match force with
          | NonbondedForce nonbonded_method _ =>
              if bool_decide
                   (nonbonded_method ∈ _NONPERIODIC_NONBONDED_METHODS)
              then raise_ThermodynamicsError BAROSTATED_NONPERIODIC []
              else ret tt
          | _ => ret tt
          end)
  end.

Definition _check_internal_consistency (self : loc) : M unit :=
  st <- read_state self ;; _check_system_consistency self (_system st).

Definition get_system (self : loc) : M loc :=
  st <- read_state self ;; deepcopy (_system st).

Definition set_system (self : loc) (value : loc) : M unit :=
  _check_system_consistency self value ;;;
  copy <- deepcopy value ;;
  st <- read_state self ;;
  write_state self (mkState copy (_temperature st) None).

Definition __init__ (system : loc) (temperature : Quantity)
    (pressure : option Quantity) : M loc :=
  copy <- deepcopy system ;;
  self <- new_state (mkState copy temperature None) ;;
  set_temperature self temperature ;;;
  match pressure with
  | Some p => set_pressure self (Some p)
  | None => ret tt
  end ;;;
  _check_internal_consistency self ;;;
  ret self.

Definition _get_standard_system (system : loc) : M loc :=
  system <- deepcopy system ;;
  barostat_id <- _find_barostat_index system ;;
  match barostat_id with
  | Some i => removeForce system i
  | None => ret tt
  end ;;;
  ret system.

Definition _get_standard_system_hash (system : loc) : M Z :=
  standard_system <- _get_standard_system system ;;
  s <- read_system standard_system ;;
  ret (str_hash omm (xml_serialize omm s)).

Definition _standard_system_hash (self : loc) : M Z :=
  st <- read_state self ;;
  match _cached_standard_system_hash st with
  | Some h => ret h
  | None =>
      h <- _get_standard_system_hash (_system st) ;;
      write_state self (mkState (_system st) (_temperature st) (Some h)) ;;;
      ret h
  end.

Definition is_state_compatible (self : loc) (thermodynamic_state : loc)
    : M bool :=
  state_system_hash <-
    try_except_AttributeError
      (_standard_system_hash thermodynamic_state)
      (state_system <- get_system thermodynamic_state ;;
       _get_standard_system_hash state_system) ;;
  h <- _standard_system_hash self ;;
  ret (bool_decide (h = state_system_hash)).

Definition is_context_compatible (self : loc) (context : Context) : M bool :=
  context_system_hash <- _get_standard_system_hash (ctx_system context) ;;
  h <- _standard_system_hash self ;;
  ret (bool_decide (h = context_system_hash)).

Definition _is_integrator_consistent (self : loc) (integrator : Integrator)
    : M bool :=
  integrator <-
    match integrator with
    | CompoundIntegrator _ _ =>
        integrator_id <- getCurrentIntegrator integrator ;;
        getIntegrator integrator integrator_id
    | _ => ret integrator
    end ;;
  try_except_AttributeError
    (t <- integrator_getTemperature integrator ;;
     temperature <- get_temperature self ;;
     ret (bool_decide (t = temperature)))
    (ret true).

Definition create_context (self : loc) (integrator : Integrator)
    (platform : option string) : M Context :=
  consistent <- _is_integrator_consistent self integrator ;;
  if negb consistent
  then raise_ThermodynamicsError INCONSISTENT_INTEGRATOR []
  else
    system <- get_system self ;;
    ret (mkContext system integrator platform).

End WithOpenMM.

(** ** The rest of the module *)

Section Volume.

Variable omm : OpenMM.

(** [np.linalg.det(box_matrix) * a.unit**3] over the rows [a/a.unit],
    [b/a.unit], [c/a.unit]: the determinant is numpy's, and is taken as
    it comes. *)
Variable box_volume : list (list Quantity) → Quantity.

Definition getDefaultPeriodicBoxVectors (system : loc)
    : M (list (list Quantity)) :=
  s <- read_system system ;; ret (box_vectors s).

(** The [volume] property. *)
Definition get_volume (self : loc) : M (option Quantity) :=
  pressure <- get_pressure self ;;
  match pressure with
  | Some _ => ret None
  | None =>
      st <- read_state self ;;
      periodic <- usesPeriodicBoundaryConditions omm (_system st) ;;
      if negb periodic then ret None
      else
        vectors <- getDefaultPeriodicBoxVectors (_system st) ;;
        ret (Some (box_volume vectors))
  end.

End Volume.

(** [integrator.setTemperature(value)], on the integrators that have a
    heat bath.  The integrator is the caller's object and is changed in
    place: the computation returns it as it is afterwards.  Python looks
    the method up before it evaluates the argument. *)
Definition integrator_setTemperature (integrator : Integrator)
    (value : M Quantity) : M Integrator :=
  match integrator with
  | SimpleIntegrator name (Some _) =>
      v <- value ;; ret (SimpleIntegrator name (Some v))
  | _ => raise AttributeError
  end.

Definition _set_integrator_temperature (self : loc) (integrator : Integrator)
    : M Integrator :=
  try_except_AttributeError
    (integrator_setTemperature integrator (get_temperature self))
    (ret integrator).


(** ** Two versions of OpenMM

    Instances of the interface, to run the module on.  [uses_pbc] is
    OpenMM's: a system is periodic when one of its forces is; a barostat
    counts as such a force before OpenMM 7.1 and not from 7.1 on, which
    is why [_check_system_consistency] looks at the nonbonded methods
    instead. *)

Definition nonbonded_method_name (m : NonbondedMethod) : string :=
  match m with
  | NoCutoff => "NoCutoff"
  | CutoffNonPeriodic => "CutoffNonPeriodic"
  | CutoffPeriodic => "CutoffPeriodic"
  | Ewald => "Ewald"
  | PME => "PME"
  end.

Definition force_uses_pbc (barostat_is_periodic : bool) (f : Force) : bool :=
  match f with
  | MonteCarloBarostat _ _ _ => barostat_is_periodic
  | NonbondedForce m _ =>
      negb (bool_decide (m ∈ _NONPERIODIC_NONBONDED_METHODS))
  | OtherForce _ periodic _ => periodic
  end.

Definition system_uses_pbc (barostat_is_periodic : bool) (s : System) : bool :=
  existsb (force_uses_pbc barostat_is_periodic) (forces s).

Definition serialize_force (f : Force) : string :=
  match f with
  | MonteCarloBarostat p t n =>
      "<Force type=MonteCarloBarostat pressure=" +:+ pretty p +:+
      " temperature=" +:+ pretty t +:+ " frequency=" +:+ pretty n +:+ "/>"
  | NonbondedForce m params =>
      "<Force type=NonbondedForce method=" +:+ nonbonded_method_name m +:+
      " " +:+ params +:+ "/>"
  | OtherForce name periodic params =>
      "<Force type=" +:+ name +:+ " " +:+ params +:+ "/>"
  end.

Definition serialize_system (s : System) : string :=
  "<System><Box>" +:+
  String.concat ";" (String.concat "," ∘ map pretty <$> box_vectors s) +:+
  "</Box><Particles>" +:+
  String.concat "," (pretty <$> particle_masses s) +:+
  "</Particles><Forces>" +:+
  String.concat "" (serialize_force <$> forces s) +:+
  "</Forces></System>".

Fixpoint polynomial_hash (acc : Z) (s : string) : Z :=
  match s with
  | EmptyString => acc
  | String c rest =>
      polynomial_hash ((acc * 31 + Z.of_nat (nat_of_ascii c)) mod 2 ^ 61) rest
  end.

Definition openmm_7_1 : OpenMM :=
  mkOpenMM true (system_uses_pbc false) serialize_system (polynomial_hash 7).

Definition openmm_7_0 : OpenMM :=
  mkOpenMM false (system_uses_pbc true) serialize_system (polynomial_hash 7).


(** * Specification

    What the properties of the module are stated with. *)

(** A force is taken for a barostat when its class name contains
    [Barostat]. *)
Definition is_barostat (f : Force) : bool :=
  contains "Barostat" (class_name f).

(** The barostat-like forces, in their order. *)
Definition barostats (fs : list Force) : list Force :=
  List.filter is_barostat fs.

(** [barostat_ids], with the indices counted from [k]. *)
Definition ids_from (k : nat) (fs : list Force) : list nat :=
  (List.filter (λ '(i, force), contains "Barostat" (class_name force))
     (enumerate_from k fs)).*1.

(** A computation that leaves the store as it found it. *)
Definition read_only {A} (m : M A) : Prop := ∀ σ, (m σ).2 = σ.

(** The exceptions of the module, with their messages. *)
Definition multiple_barostats : Exception :=
  ThermodynamicsError MULTIPLE_BAROSTATS "System has multiple barostats.".

Definition unsupported_barostat (name : string) : Exception :=
  ThermodynamicsError UNSUPPORTED_BAROSTAT
    ("Found unsupported barostat " +:+ (name +:+ " in system.")).

(** An instance of [openmm.MonteCarloBarostat]. *)
Definition is_MonteCarloBarostat (f : Force) : bool :=
  match f with MonteCarloBarostat _ _ _ => true | _ => false end.

(** The forces of a system, by the barostat-like forces among them:
    none; one, a [MonteCarloBarostat]; one, of another class; several. *)
Inductive Shape (fs : list Force) : Prop :=
| Unbarostated :
    barostats fs = [] → Shape fs
| Barostated l1 p t n l2 :
    fs = l1 ++ MonteCarloBarostat p t n :: l2 →
    barostats l1 = [] → barostats l2 = [] → Shape fs
| Foreign l1 f l2 :
    fs = l1 ++ f :: l2 → is_barostat f = true →
    is_MonteCarloBarostat f = false →
    barostats l1 = [] → barostats l2 = [] → Shape fs
| Multiple :
    (2 ≤ length (barostats fs))%nat → Shape fs.

(** What a barostat-like force of another class makes a method raise. *)
Definition unsupported_or_missing (e : Exception) : Prop :=
  (∃ name, e = unsupported_barostat name) ∨ e = AttributeError.

(** The state after [self._temperature = v]. *)
Definition retemp (st : ThermodynamicState) (v : Quantity) :=
  mkState (_system st) v (_cached_standard_system_hash st).

Definition barostated_nonperiodic : Exception :=
  ThermodynamicsError BAROSTATED_NONPERIODIC
    "Non-periodic systems cannot have a barostat.".

Definition inconsistent_barostat : Exception :=
  ThermodynamicsError INCONSISTENT_BAROSTAT
    "System barostat is inconsistent with thermodynamic state.".

(** A [NonbondedForce] with one of the non-periodic methods. *)
Definition nonperiodic_nonbonded (f : Force) : bool :=
  match f with
  | NonbondedForce m _ => bool_decide (m ∈ _NONPERIODIC_NONBONDED_METHODS)
  | _ => false
  end.

(** The forces that are not barostat-like, in their order. *)
Definition nonbarostats (fs : list Force) : list Force :=
  List.filter (λ f, negb (is_barostat f)) fs.

(** The system without its barostat-like forces. *)
Definition standard (s : System) : System :=
  with_forces s (nonbarostats (forces s)).

(** At most one barostat-like force, a [MonteCarloBarostat] at
    temperature [T]. *)
Definition consistent (T : Quantity) (fs : list Force) : Prop :=
  barostats fs = [] ∨ ∃ p n, barostats fs = [MonteCarloBarostat p T n].

(** A state object that owns a system consistent with its temperature. *)
Definition valid (σ : Store) (self : loc) : Prop :=
  ∃ st s, states σ !! self = Some st ∧ systems σ !! _system st = Some s ∧
          consistent (_temperature st) (forces s).

(** The owned system holds at most one barostat-like force; that force
    is a [MonteCarloBarostat] whose temperature is the temperature of
    the state and whose pressure is the pressure the state reports; and
    the state reports no pressure exactly when there is no such force. *)
Definition invariant (σ : Store) (self : loc) : Prop :=
  ∃ st s,
    states σ !! self = Some st ∧ systems σ !! _system st = Some s ∧
    (length (barostats (forces s)) ≤ 1)%nat ∧
    (∀ b, b ∈ barostats (forces s) →
       ∃ p n, b = MonteCarloBarostat p (_temperature st) n ∧
              get_pressure self σ = (Return (Some p), σ)) ∧
    (get_pressure self σ = (Return None, σ) ↔ barostats (forces s) = []).

Definition inconsistent_integrator : Exception :=
  ThermodynamicsError INCONSISTENT_INTEGRATOR
    "Integrator is coupled to a heat bath at a different temperature.".

(** The heat-bath temperature an integrator exposes: its own or, for a
    compound integrator, that of its current integrator. *)
Definition heat_bath_temperature (integrator : Integrator)
    : option Quantity :=
  match integrator with
  | SimpleIntegrator _ t => t
  | CompoundIntegrator integrators current =>
      match integrators !! current with
      | Some (SimpleIntegrator _ t) => t
      | _ => None
      end
  end.

(** The current integrator of a compound integrator is one of its
    integrators. *)
Definition current_in_range (integrator : Integrator) : Prop :=
  match integrator with
  | SimpleIntegrator _ _ => True
  | CompoundIntegrator integrators current => is_Some (integrators !! current)
  end.

Section Specification.

Variable omm : OpenMM.


(** The hash of the serialization of the system without its
    barostat-like forces. *)
Definition system_hash (s : System) : Z :=
  str_hash omm (xml_serialize omm (standard s)).

(** The cached hash of a state, when there is one, is the hash of its
    owned system. *)
Definition coherent (σ : Store) (self : loc) : Prop :=
  ∀ st s h,
    states σ !! self = Some st → systems σ !! _system st = Some s →
    _cached_standard_system_hash st = Some h → h = system_hash s.

(** A state whose hash can be taken: it owns a system with at most one
    barostat-like force, and its cache, if filled, is right. *)
Definition ready (σ : Store) (x : loc) (st : ThermodynamicState)
    (s : System) : Prop :=
  states σ !! x = Some st ∧ systems σ !! _system st = Some s ∧
  (length (barostats (forces s)) ≤ 1)%nat ∧
  ∀ h, _cached_standard_system_hash st = Some h → h = system_hash s.

End Specification.

(** A force after [setDefaultTemperature(T)], where it has one. *)
Definition at_temperature (T : Quantity) (f : Force) : Force :=
  match f with
  | MonteCarloBarostat p _ n => MonteCarloBarostat p T n
  | _ => f
  end.

(** The system with its barostats set to temperature [T]. *)
Definition retargeted (T : Quantity) (s : System) : System :=
  with_forces s (at_temperature T <$> forces s).

(** At most one barostat-like force, a [MonteCarloBarostat]. *)
Definition supported (fs : list Force) : Prop :=
  barostats fs = [] ∨ ∃ p t n, barostats fs = [MonteCarloBarostat p t n].

(** The pressure of the barostat of a system, if it has one. *)
Definition barostat_pressure (fs : list Force) : option Quantity :=
  match barostats fs with
  | [MonteCarloBarostat p _ _] => Some p
  | _ => None
  end.



(** The magnitudes a barostat of OpenMM takes and holds as they are
    given: the positive integers up to [2 ^ 53].  OpenMM holds the
    parameters of a barostat as doubles, which are exact on these, and
    refuses a negative temperature with an exception.  OpenMM holds a
    pressure in bar: the statements made with this predicate do not
    compare the pressure read from a barostat with the one assigned. *)
Definition held_exactly (v : Quantity) : Prop := 0 < v ≤ 2 ^ 53.

(** ** Stores to run the module on *)

(** Systems a caller holds: a periodic box of water, the same box with
    a barostat at 1 atm and 300 K, a molecule in vacuum, a box with two
    barostats, one with an anisotropic barostat, and a bonded system
    with a barostat and no periodic force. *)
Definition water_box : System :=
  mkSystem [OtherForce "HarmonicBondForce" false "k=1"; NonbondedForce PME "q"]
           [16; 1; 1] [[3;0;0];[0;3;0];[0;0;3]].

Definition water_box_npt : System :=
  with_forces water_box (forces water_box ++ [MonteCarloBarostat 1 300 25]).

Definition vacuum : System :=
  mkSystem [OtherForce "HarmonicBondForce" false "k=1";
            NonbondedForce NoCutoff "q"]
           [12; 1] [].

Definition two_barostats : System :=
  with_forces water_box
    (forces water_box ++
     [MonteCarloBarostat 1 300 25; MonteCarloBarostat 1 300 25]).

Definition anisotropic : System :=
  with_forces water_box
    (forces water_box ++
     [OtherForce "MonteCarloAnisotropicBarostat" false "p=1,1,1"]).

Definition bonded_npt : System :=
  mkSystem [OtherForce "HarmonicBondForce" false "k=1";
            MonteCarloBarostat 1 300 25]
           [12; 1] [[3;0;0];[0;3;0];[0;0;3]].

Definition caller_store : Store :=
  mkStore (<[0%nat := water_box_npt]> (<[1%nat := water_box]>
           (<[2%nat := vacuum]> (<[3%nat := two_barostats]>
           (<[4%nat := anisotropic]> (<[5%nat := bonded_npt]> ∅))))))
          ∅.

(** The caller constructs a state at 300 K over the barostated box,
    then one at 310 K over the box without barostat. *)
Definition npt_store : Store :=
  (__init__ openmm_7_1 0%nat 300 None caller_store).2.

Definition two_states : Store :=
  (__init__ openmm_7_1 1%nat 310 None npt_store).2.

(** A state over the bonded system, which has a barostat and no
    periodic force. *)
Definition bonded_store : Store :=
  (__init__ openmm_7_1 5%nat 300 None caller_store).2.

(** A state over the molecule in vacuum. *)
Definition vacuum_store : Store :=
  (__init__ openmm_7_1 2%nat 300 None caller_store).2.

(** The two state objects of [two_states], as constructed. *)
Definition npt_state : ThermodynamicState := mkState 6%nat 300 None.
Definition nvt_state : ThermodynamicState := mkState 7%nat 310 None.

(** A box that OpenMM takes for periodic, through a custom force, and
    whose [NonbondedForce] has no cutoff; and a state over it. *)
Definition mixed_box : System :=
  mkSystem [NonbondedForce NoCutoff "q";
            OtherForce "CustomNonbondedForce" true "r"]
           [16; 1; 1] [[3;0;0];[0;3;0];[0;0;3]].

Definition mixed_caller_store : Store :=
  mkStore (<[0%nat := mixed_box]> ∅) ∅.

Definition mixed_store : Store :=
  (__init__ openmm_7_1 0%nat 300 None mixed_caller_store).2.

Definition mixed_state : ThermodynamicState := mkState 1%nat 300 None.

(** The determinant of the matrix of a rectangular box: the product of
    its diagonal. *)
Definition rectangular_volume (vectors : list (list Quantity)) : Quantity :=
  match vectors with
  | [[x; _; _]; [_; y; _]; [_; _; z]] => x * y * z
  | _ => 0
  end.

(** * Properties *)

(** ** Barostat-like forces of a system *)

Lemma barostat_ids_ids_from fs : barostat_ids fs = ids_from 0 fs.
Proof. reflexivity. Qed.

Lemma ids_from_cons k f fs :
  ids_from k (f :: fs) =
  if is_barostat f then k :: ids_from (S k) fs else ids_from (S k) fs.
Proof.
  unfold ids_from, is_barostat. simpl.
  destruct (contains "Barostat" (class_name f)); reflexivity.
Qed.

Lemma ids_from_app k l1 l2 :
  ids_from k (l1 ++ l2) = ids_from k l1 ++ ids_from (k + length l1)%nat l2.
Proof.
  revert k. induction l1 as [|f l1 IH]; intros k.
  - simpl. rewrite Nat.add_0_r. reflexivity.
  - rewrite <- app_comm_cons, !ids_from_cons, IH. simpl length.
    replace (S k + length l1)%nat with (k + S (length l1))%nat by lia.
    destruct (is_barostat f); reflexivity.
Qed.

Lemma ids_from_length k fs : length (ids_from k fs) = length (barostats fs).
Proof.
  revert k. induction fs as [|f fs IH]; intros k; [reflexivity|].
  rewrite ids_from_cons. unfold barostats. simpl.
  destruct (is_barostat f); simpl; rewrite IH; reflexivity.
Qed.

Lemma ids_from_nil k fs : barostats fs = [] → ids_from k fs = [].
Proof.
  intros H. apply length_zero_iff_nil. rewrite ids_from_length, H. reflexivity.
Qed.

Lemma ids_from_nil_inv k fs : ids_from k fs = [] → barostats fs = [].
Proof.
  intros H. apply length_zero_iff_nil. rewrite <- (ids_from_length k), H.
  reflexivity.
Qed.

(** A single barostat-like force splits the forces around it. *)
Lemma ids_from_singleton k fs i :
  ids_from k fs = [i] →
  ∃ l1 f l2, fs = l1 ++ f :: l2 ∧ i = (k + length l1)%nat ∧
             is_barostat f = true ∧ barostats l1 = [] ∧ barostats l2 = [].
Proof.
  revert k. induction fs as [|f fs IH]; intros k H; [discriminate|].
  rewrite ids_from_cons in H. destruct (is_barostat f) eqn:Hf.
  - injection H as -> Hrest. exists [], f, fs. simpl.
    split_and!; auto; try lia. eapply ids_from_nil_inv, Hrest.
  - destruct (IH _ H) as (l1 & g & l2 & -> & -> & Hg & H1 & H2).
    exists (f :: l1), g, l2. simpl. split_and!; auto; try lia.
    unfold barostats in *. simpl. rewrite Hf. exact H1.
Qed.

Lemma ids_from_split k l1 f l2 :
  is_barostat f = true → barostats l1 = [] → barostats l2 = [] →
  ids_from k (l1 ++ f :: l2) = [(k + length l1)%nat].
Proof.
  intros Hf H1 H2.
  rewrite ids_from_app, ids_from_cons, Hf, (ids_from_nil _ l1 H1),
    (ids_from_nil _ l2 H2).
  reflexivity.
Qed.

Lemma barostats_app l1 l2 : barostats (l1 ++ l2) = barostats l1 ++ barostats l2.
Proof. apply List.filter_app. Qed.

Lemma barostats_split l1 f l2 :
  is_barostat f = true → barostats l1 = [] → barostats l2 = [] →
  barostats (l1 ++ f :: l2) = [f].
Proof.
  intros Hf H1 H2. rewrite barostats_app, H1. unfold barostats in *. simpl.
  rewrite Hf, H2. reflexivity.
Qed.

(** The forces of a system with exactly one barostat-like force. *)
Lemma barostats_singleton fs f :
  barostats fs = [f] →
  ∃ l1 l2, fs = l1 ++ f :: l2 ∧ is_barostat f = true ∧
           barostats l1 = [] ∧ barostats l2 = [].
Proof.
  induction fs as [|g fs IH]; [discriminate|].
  unfold barostats in *. simpl. destruct (is_barostat g) eqn:Hg.
  - intros [= -> Hrest]. exists [], fs. auto.
  - intros H. destruct (IH H) as (l1 & l2 & -> & Hf & H1 & H2).
    exists (g :: l1), l2. simpl. rewrite Hg. auto.
Qed.

(** ** Strings in messages *)

Lemma prefix_app (n b : string) : String.prefix n (n +:+ b) = true.
Proof.
  induction n as [|c n IH]; [destruct b; reflexivity|].
  change (String.prefix (String c n) (String c (n +:+ b)) = true).
  cbn [String.prefix]. destruct (Ascii.ascii_dec c c); [exact IH|congruence].
Qed.

Lemma contains_prefix (n h : string) :
  String.prefix n h = true → contains n h = true.
Proof. intros H. destruct h; cbn [contains]; rewrite H; reflexivity. Qed.

Lemma contains_app (n a b : string) : contains n (a +:+ (n +:+ b)) = true.
Proof.
  induction a as [|c a IH].
  - change (contains n (n +:+ b) = true). apply contains_prefix, prefix_app.
  - change (contains n (String c (a +:+ (n +:+ b))) = true).
    cbn [contains]. rewrite IH. apply orb_true_r.
Qed.

Lemma unsupported_message name :
  format (error_messages UNSUPPORTED_BAROSTAT) [name] =
  Some ("Found unsupported barostat " +:+ (name +:+ " in system.")).
Proof. reflexivity. Qed.

(** ** Running the monad *)

Lemma bind_Return {A B} (m : M A) (k : A → M B) σ a σ' :
  m σ = (Return a, σ') → bind m k σ = k a σ'.
Proof. unfold bind. intros ->. reflexivity. Qed.

Lemma bind_Raise {A B} (m : M A) (k : A → M B) σ e σ' :
  m σ = (Raise e, σ') → bind m k σ = (Raise e, σ').
Proof. unfold bind. intros ->. reflexivity. Qed.

Lemma read_system_Some σ l s :
  systems σ !! l = Some s → read_system l σ = (Return s, σ).
Proof. unfold read_system. intros ->. reflexivity. Qed.

Lemma read_state_Some σ l st :
  states σ !! l = Some st → read_state l σ = (Return st, σ).
Proof. unfold read_state. intros ->. reflexivity. Qed.

Lemma read_only_ret {A} (a : A) : read_only (ret a).
Proof. intros σ. reflexivity. Qed.

Lemma read_only_raise {A} e : read_only (@raise A e).
Proof. intros σ. reflexivity. Qed.

Lemma read_only_bind {A B} (m : M A) (k : A → M B) :
  read_only m → (∀ a, read_only (k a)) → read_only (bind m k).
Proof.
  intros Hm Hk σ. unfold bind. specialize (Hm σ).
  destruct (m σ) as [[a|e] σ']; simpl in Hm; subst σ'; [apply Hk|reflexivity].
Qed.

Lemma read_only_try {A} (m h : M A) :
  read_only m → read_only h → read_only (try_except_AttributeError m h).
Proof.
  intros Hm Hh σ. unfold try_except_AttributeError. specialize (Hm σ).
  destruct (m σ) as [[a|e] σ']; simpl in Hm; subst σ'; [reflexivity|].
  destruct e; try reflexivity. apply Hh.
Qed.

Lemma read_only_raise_ThermodynamicsError {A} code args :
  read_only (@raise_ThermodynamicsError A code args).
Proof.
  unfold raise_ThermodynamicsError.
  destruct (format _ _); apply read_only_raise.
Qed.

Lemma read_only_read_system l : read_only (read_system l).
Proof. intros σ. unfold read_system. destruct (_ !! _); reflexivity. Qed.

Lemma read_only_read_state l : read_only (read_state l).
Proof. intros σ. unfold read_state. destruct (_ !! _); reflexivity. Qed.

Lemma read_only_for_each {A} (l : list A) (body : A → M unit) :
  (∀ x, read_only (body x)) → read_only (for_each l body).
Proof.
  intros Hb. induction l as [|x l IH]; simpl.
  - apply read_only_ret.
  - apply read_only_bind; auto.
Qed.

Create HintDb read_only.
#[global] Hint Resolve read_only_ret read_only_raise read_only_read_system
  read_only_read_state read_only_raise_ThermodynamicsError : read_only.

Ltac read_only :=
  repeat first
    [ solve [auto with read_only]
    | progress cbv zeta
    | apply read_only_bind; [|intros ?]
    | apply read_only_try
    | apply read_only_for_each; intros ?
    | match goal with
      | |- read_only (match ?x with _ => _ end) => destruct x
      | |- read_only (if ?x then _ else _) => destruct x
      end ].

Section Properties.

Variable omm : OpenMM.

Lemma read_only_getForces l : read_only (getForces l).
Proof. unfold getForces. read_only. Qed.

Lemma read_only_getForce l i : read_only (getForce l i).
Proof. unfold getForce. read_only. Qed.

Lemma read_only_deref b : read_only (deref b).
Proof. unfold deref. read_only. Qed.

Hint Resolve read_only_getForces read_only_getForce read_only_deref
  : read_only.

Lemma read_only_getDefaultPressure b : read_only (getDefaultPressure b).
Proof. unfold getDefaultPressure. read_only. Qed.

Lemma read_only_getDefaultTemperature b :
  read_only (getDefaultTemperature omm b).
Proof. unfold getDefaultTemperature. read_only. Qed.

Lemma read_only_getTemperature b : read_only (getTemperature omm b).
Proof. unfold getTemperature. read_only. Qed.

Lemma read_only_find_barostat_index l : read_only (_find_barostat_index l).
Proof. unfold _find_barostat_index. read_only. Qed.

Hint Resolve read_only_getDefaultPressure read_only_getDefaultTemperature
  read_only_getTemperature read_only_find_barostat_index : read_only.

Lemma read_only_find_barostat l : read_only (_find_barostat l).
Proof. unfold _find_barostat. read_only. Qed.

Hint Resolve read_only_find_barostat : read_only.

Lemma read_only_get_pressure self : read_only (get_pressure self).
Proof. unfold get_pressure, _barostat. read_only. Qed.

Lemma read_only_get_temperature self : read_only (get_temperature self).
Proof. unfold get_temperature. read_only. Qed.

Hint Resolve read_only_get_pressure read_only_get_temperature : read_only.

Lemma read_only_is_barostat_consistent self b :
  read_only (_is_barostat_consistent omm self b).
Proof. unfold _is_barostat_consistent. read_only. Qed.

Hint Resolve read_only_is_barostat_consistent : read_only.

Lemma read_only_check_system_consistency self system :
  read_only (_check_system_consistency omm self system).
Proof. unfold _check_system_consistency. read_only. Qed.

(** ** Barostat discovery *)

Lemma find_barostat_index_none σ l s :
  systems σ !! l = Some s → barostats (forces s) = [] →
  _find_barostat_index l σ = (Return None, σ).
Proof.
  intros Hl Hb. unfold _find_barostat_index, getForces.
  rewrite (bind_Return _ _ σ (forces s) σ).
  2:{ rewrite (bind_Return _ _ _ _ _ (read_system_Some _ _ _ Hl)). done. }
  rewrite barostat_ids_ids_from, (ids_from_nil _ _ Hb). reflexivity.
Qed.

Lemma find_barostat_index_one σ l s l1 f l2 :
  systems σ !! l = Some s → forces s = l1 ++ f :: l2 →
  is_barostat f = true → barostats l1 = [] → barostats l2 = [] →
  _find_barostat_index l σ = (Return (Some (length l1)), σ).
Proof.
  intros Hl Hs Hf H1 H2. unfold _find_barostat_index, getForces.
  rewrite (bind_Return _ _ σ (forces s) σ).
  2:{ rewrite (bind_Return _ _ _ _ _ (read_system_Some _ _ _ Hl)). done. }
  rewrite barostat_ids_ids_from, Hs, (ids_from_split _ _ _ _ Hf H1 H2).
  reflexivity.
Qed.

Lemma find_barostat_index_many σ l s :
  systems σ !! l = Some s → (2 ≤ length (barostats (forces s)))%nat →
  _find_barostat_index l σ = (Raise multiple_barostats, σ).
Proof.
  intros Hl Hb. unfold _find_barostat_index, getForces.
  rewrite (bind_Return _ _ σ (forces s) σ).
  2:{ rewrite (bind_Return _ _ _ _ _ (read_system_Some _ _ _ Hl)). done. }
  cbv zeta. rewrite barostat_ids_ids_from, ids_from_length.
  destruct (Nat.eqb_spec (length (barostats (forces s))) 0); [lia|].
  destruct (Nat.ltb_spec 1 (length (barostats (forces s)))); [|lia].
  reflexivity.
Qed.

Lemma find_barostat_none σ l s :
  systems σ !! l = Some s → barostats (forces s) = [] →
  _find_barostat l σ = (Return None, σ).
Proof.
  intros Hl Hb. unfold _find_barostat.
  rewrite (bind_Return _ _ _ _ _ (find_barostat_index_none _ _ _ Hl Hb)).
  reflexivity.
Qed.

Lemma find_barostat_many σ l s :
  systems σ !! l = Some s → (2 ≤ length (barostats (forces s)))%nat →
  _find_barostat l σ = (Raise multiple_barostats, σ).
Proof.
  intros Hl Hb. unfold _find_barostat.
  rewrite (bind_Raise _ _ _ _ _ (find_barostat_index_many _ _ _ Hl Hb)).
  reflexivity.
Qed.

Lemma getForce_Some σ l s i f :
  systems σ !! l = Some s → forces s !! i = Some f →
  getForce l i σ = (Return (mkForceRef l i), σ).
Proof.
  intros Hl Hi. unfold getForce.
  rewrite (bind_Return _ _ _ _ _ (read_system_Some _ _ _ Hl)), Hi.
  reflexivity.
Qed.

Lemma deref_Some σ l s i f :
  systems σ !! l = Some s → forces s !! i = Some f →
  deref (mkForceRef l i) σ = (Return f, σ).
Proof.
  intros Hl Hi. unfold deref. simpl.
  rewrite (bind_Return _ _ _ _ _ (read_system_Some _ _ _ Hl)), Hi.
  reflexivity.
Qed.

Lemma lookup_middle (l1 l2 : list Force) f :
  (l1 ++ f :: l2) !! length l1 = Some f.
Proof. apply list_lookup_middle. reflexivity. Qed.

Lemma find_barostat_one σ l s l1 f l2 :
  systems σ !! l = Some s → forces s = l1 ++ f :: l2 →
  is_barostat f = true → barostats l1 = [] → barostats l2 = [] →
  _find_barostat l σ =
  (if bool_decide (class_name f ∈ _SUPPORTED_BAROSTATS)
   then Return (Some (mkForceRef l (length l1)))
   else Raise (unsupported_barostat (class_name f)), σ).
Proof.
  intros Hl Hs Hf H1 H2. unfold _find_barostat.
  rewrite (bind_Return _ _ _ _ _
             (find_barostat_index_one _ _ _ _ _ _ Hl Hs Hf H1 H2)).
  assert (Hi : forces s !! length l1 = Some f)
    by (rewrite Hs; apply lookup_middle).
  rewrite (bind_Return _ _ _ _ _ (getForce_Some _ _ _ _ _ Hl Hi)).
  rewrite (bind_Return _ _ _ _ _ (deref_Some _ _ _ _ _ Hl Hi)).
  destruct (bool_decide _); reflexivity.
Qed.

Lemma supported_class_name f :
  class_name f ∈ _SUPPORTED_BAROSTATS ↔ class_name f = "MonteCarloBarostat"%string.
Proof. unfold _SUPPORTED_BAROSTATS. rewrite list_elem_of_singleton. done. Qed.

(** C4.  Barostat discovery on a system: no force whose class name
    contains [Barostat] gives no barostat and no error; two or more give
    [MULTIPLE_BAROSTATS]; exactly one, of a class other than
    [MonteCarloBarostat], gives [UNSUPPORTED_BAROSTAT] with a message
    that contains the name of that class. *)
Theorem barostat_discovery σ system s :
  systems σ !! system = Some s →
  (barostats (forces s) = [] →
     _find_barostat_index system σ = (Return None, σ) ∧
     _find_barostat system σ = (Return None, σ)) ∧
  ((2 ≤ length (barostats (forces s)))%nat →
     ∃ message,
       _find_barostat_index system σ =
         (Raise (ThermodynamicsError MULTIPLE_BAROSTATS message), σ) ∧
       _find_barostat system σ =
         (Raise (ThermodynamicsError MULTIPLE_BAROSTATS message), σ)) ∧
  (∀ f, barostats (forces s) = [f] →
     class_name f ≠ "MonteCarloBarostat"%string →
     ∃ message,
       _find_barostat system σ =
         (Raise (ThermodynamicsError UNSUPPORTED_BAROSTAT message), σ) ∧
       contains (class_name f) message = true).
Proof.
  intros Hl. split_and!.
  - intros Hb. split.
    + eapply find_barostat_index_none; eauto.
    + eapply find_barostat_none; eauto.
  - intros Hb. eexists. split.
    + eapply find_barostat_index_many; eauto.
    + eapply find_barostat_many; eauto.
  - intros f Hb Hname.
    destruct (barostats_singleton _ _ Hb) as (l1 & l2 & Hs & Hf & H1 & H2).
    eexists. split.
    + rewrite (find_barostat_one _ _ _ _ _ _ Hl Hs Hf H1 H2).
      rewrite bool_decide_eq_false_2; [reflexivity|].
      rewrite supported_class_name. exact Hname.
    + apply contains_app.
Qed.

(** ** The forces of a system, by the barostats among them *)

Lemma shape fs : Shape fs.
Proof.
  destruct (barostats fs) as [|f [|g rest]] eqn:Hb.
  - apply Unbarostated. exact Hb.
  - destruct (barostats_singleton _ _ Hb) as (l1 & l2 & Hs & Hf & H1 & H2).
    destruct f as [p t n| |] eqn:Ef.
    + eapply Barostated; eauto.
    + discriminate Hf.
    + eapply Foreign; eauto.
  - apply Multiple. rewrite Hb. simpl. lia.
Qed.

Lemma insert_middle (l1 l2 : list Force) f g :
  <[length l1 := g]> (l1 ++ f :: l2) = l1 ++ g :: l2.
Proof.
  rewrite insert_app_r_alt by lia. rewrite Nat.sub_diag. reflexivity.
Qed.

Lemma delete_middle_force (l1 l2 : list Force) f :
  delete (length l1) (l1 ++ f :: l2) = l1 ++ l2.
Proof. apply delete_middle. Qed.

(** ** The accessors of a force *)

Lemma bind_ret {A B} (a : A) (k : A → M B) σ : bind (ret a) k σ = k a σ.
Proof. reflexivity. Qed.

Lemma bind_write_state {B} l st (k : unit → M B) σ :
  bind (write_state l st) k σ =
  k tt (mkStore (systems σ) (<[l:=st]> (states σ))).
Proof. reflexivity. Qed.

Section Accessors.

Variables (σ : Store) (l : loc) (s : System) (i : nat) (f : Force).
Hypothesis Hl : systems σ !! l = Some s.
Hypothesis Hi : forces s !! i = Some f.

Let b := mkForceRef l i.

Lemma update_force g :
  update b g σ =
  (Return tt,
   mkStore (<[l := with_forces s (<[i := g]> (forces s))]> (systems σ))
     (states σ)).
Proof.
  unfold update. simpl.
  rewrite (bind_Return _ _ _ _ _ (read_system_Some _ _ _ Hl)). reflexivity.
Qed.

Lemma getDefaultPressure_force :
  getDefaultPressure b σ =
  (match f with
   | MonteCarloBarostat p _ _ => Return p
   | _ => Raise AttributeError
   end, σ).
Proof.
  unfold getDefaultPressure.
  rewrite (bind_Return _ _ _ _ _ (deref_Some _ _ _ _ _ Hl Hi)).
  destruct f; reflexivity.
Qed.

Lemma setDefaultPressure_force v :
  setDefaultPressure b v σ =
  match f with
  | MonteCarloBarostat _ t n =>
      (Return tt,
       mkStore (<[l := with_forces s
                         (<[i := MonteCarloBarostat v t n]> (forces s))]>
                  (systems σ)) (states σ))
  | _ => (Raise AttributeError, σ)
  end.
Proof.
  unfold setDefaultPressure.
  rewrite (bind_Return _ _ _ _ _ (deref_Some _ _ _ _ _ Hl Hi)).
  destruct f; try reflexivity. apply update_force.
Qed.

(** Reading the barostat temperature, through whichever pair of
    accessors the installed OpenMM has. *)
Lemma get_barostat_temperature :
  try_except_AttributeError
    (getDefaultTemperature omm b) (getTemperature omm b) σ =
  (match f with
   | MonteCarloBarostat _ t _ => Return t
   | _ => Raise AttributeError
   end, σ).
Proof.
  unfold try_except_AttributeError, getDefaultTemperature, getTemperature.
  rewrite (bind_Return _ _ _ _ _ (deref_Some _ _ _ _ _ Hl Hi)).
  destruct f; destruct (has_default_temperature omm);
    cbv [raise ret]; cbv iota beta;
    rewrite ?(bind_Return _ _ _ _ _ (deref_Some _ _ _ _ _ Hl Hi));
    reflexivity.
Qed.

(** Writing it, likewise. *)
Lemma set_barostat_temperature v :
  try_except_AttributeError
    (setDefaultTemperature omm b v) (setTemperature omm b v) σ =
  match f with
  | MonteCarloBarostat p _ n =>
      (Return tt,
       mkStore (<[l := with_forces s
                         (<[i := MonteCarloBarostat p v n]> (forces s))]>
                  (systems σ)) (states σ))
  | _ => (Raise AttributeError, σ)
  end.
Proof.
  unfold try_except_AttributeError, setDefaultTemperature, setTemperature.
  rewrite (bind_Return _ _ _ _ _ (deref_Some _ _ _ _ _ Hl Hi)).
  destruct f; destruct (has_default_temperature omm);
    rewrite ?update_force; cbv [raise ret]; cbv iota beta;
    rewrite ?(bind_Return _ _ _ _ _ (deref_Some _ _ _ _ _ Hl Hi));
    rewrite ?update_force; reflexivity.
Qed.

End Accessors.

(** ** The methods, on a state that owns a system *)

(** A barostat-like force of another class is either refused by name or,
    when its class is named like the supported one, handed out. *)
Lemma find_barostat_foreign σ l s l1 f l2 :
  systems σ !! l = Some s → forces s = l1 ++ f :: l2 →
  is_barostat f = true → barostats l1 = [] → barostats l2 = [] →
  _find_barostat l σ = (Raise (unsupported_barostat (class_name f)), σ) ∨
  _find_barostat l σ = (Return (Some (mkForceRef l (length l1))), σ).
Proof.
  intros Hl Hs Hf H1 H2.
  rewrite (find_barostat_one _ _ _ _ _ _ Hl Hs Hf H1 H2).
  destruct (bool_decide _); auto.
Qed.

Lemma find_barostat_barostated σ l s l1 p t n l2 :
  systems σ !! l = Some s →
  forces s = l1 ++ MonteCarloBarostat p t n :: l2 →
  barostats l1 = [] → barostats l2 = [] →
  _find_barostat l σ = (Return (Some (mkForceRef l (length l1))), σ).
Proof.
  intros Hl Hs H1 H2.
  rewrite (find_barostat_one _ _ _ _ _ _ Hl Hs eq_refl H1 H2). reflexivity.
Qed.

Lemma barostat_self σ self st :
  states σ !! self = Some st →
  _barostat self σ = _find_barostat (_system st) σ.
Proof.
  intros Hst. unfold _barostat.
  rewrite (bind_Return _ _ _ _ _ (read_state_Some _ _ _ Hst)). reflexivity.
Qed.

Lemma bind_barostat_self {B} (k : option ForceRef → M B) σ self st :
  states σ !! self = Some st →
  bind (_barostat self) k σ = bind (_find_barostat (_system st)) k σ.
Proof. intros Hst. unfold bind. rewrite (barostat_self _ _ _ Hst). done. Qed.

Section OwnSystem.

Variables (σ : Store) (self : loc) (st : ThermodynamicState) (s : System).
Hypothesis Hst : states σ !! self = Some st.
Hypothesis Hs : systems σ !! _system st = Some s.

Lemma get_temperature_self : get_temperature self σ = (Return (_temperature st), σ).
Proof.
  unfold get_temperature.
  rewrite (bind_Return _ _ _ _ _ (read_state_Some _ _ _ Hst)). reflexivity.
Qed.

(** *** The pressure getter *)

Lemma get_pressure_unbarostated :
  barostats (forces s) = [] → get_pressure self σ = (Return None, σ).
Proof.
  intros Hb. unfold get_pressure. rewrite (bind_barostat_self _ _ _ _ Hst).
  rewrite (bind_Return _ _ _ _ _ (find_barostat_none _ _ _ Hs Hb)).
  reflexivity.
Qed.

Lemma get_pressure_barostated l1 p t n l2 :
  forces s = l1 ++ MonteCarloBarostat p t n :: l2 →
  barostats l1 = [] → barostats l2 = [] →
  get_pressure self σ = (Return (Some p), σ).
Proof.
  intros Hf H1 H2. unfold get_pressure. rewrite (bind_barostat_self _ _ _ _ Hst).
  rewrite (bind_Return _ _ _ _ _
             (find_barostat_barostated _ _ _ _ _ _ _ _ Hs Hf H1 H2)).
  assert (Hi : forces s !! length l1 = Some (MonteCarloBarostat p t n))
    by (rewrite Hf; apply lookup_middle).
  rewrite (bind_Return _ _ _ _ _ (getDefaultPressure_force _ _ _ _ _ Hs Hi)).
  reflexivity.
Qed.

Lemma get_pressure_foreign l1 f l2 :
  forces s = l1 ++ f :: l2 → is_barostat f = true →
  is_MonteCarloBarostat f = false →
  barostats l1 = [] → barostats l2 = [] →
  ∃ e, get_pressure self σ = (Raise e, σ) ∧ unsupported_or_missing e.
Proof.
  intros Hf Hb Hm H1 H2. unfold get_pressure. rewrite (bind_barostat_self _ _ _ _ Hst).
  destruct (find_barostat_foreign _ _ _ _ _ _ Hs Hf Hb H1 H2) as [E|E].
  - rewrite (bind_Raise _ _ _ _ _ E). eexists. split; [reflexivity|].
    left. eauto.
  - rewrite (bind_Return _ _ _ _ _ E).
    assert (Hi : forces s !! length l1 = Some f)
      by (rewrite Hf; apply lookup_middle).
    rewrite (bind_Raise _ _ σ AttributeError σ).
    + eexists. split; [reflexivity|]. right. reflexivity.
    + rewrite (getDefaultPressure_force _ _ _ _ _ Hs Hi).
      destruct f; try reflexivity. discriminate Hm.
Qed.

Lemma get_pressure_multiple :
  (2 ≤ length (barostats (forces s)))%nat →
  get_pressure self σ = (Raise multiple_barostats, σ).
Proof.
  intros Hb. unfold get_pressure. rewrite (bind_barostat_self _ _ _ _ Hst).
  rewrite (bind_Raise _ _ _ _ _ (find_barostat_many _ _ _ Hs Hb)).
  reflexivity.
Qed.

(** *** The temperature setter *)

Let σ1 (v : Quantity) : Store :=
  mkStore (systems σ) (<[self := retemp st v]> (states σ)).

Lemma set_temperature_start v :
  set_temperature omm self v σ =
  (barostat <- _find_barostat (_system st) ;;
   match barostat with
   | Some b =>
       try_except_AttributeError
         (setDefaultTemperature omm b v) (setTemperature omm b v)
   | None => ret tt
   end) (σ1 v).
Proof.
  unfold set_temperature.
  rewrite (bind_Return _ _ _ _ _ (read_state_Some _ _ _ Hst)).
  rewrite bind_write_state. fold (retemp st v). fold (σ1 v).
  apply (bind_barostat_self _ (σ1 v) self (retemp st v)).
  apply lookup_insert_eq.
Qed.

Lemma set_temperature_unbarostated v :
  barostats (forces s) = [] →
  set_temperature omm self v σ = (Return tt, σ1 v).
Proof.
  intros Hb. rewrite set_temperature_start.
  rewrite (bind_Return _ _ _ _ _ (find_barostat_none (σ1 v) _ _ Hs Hb)).
  reflexivity.
Qed.

Lemma set_temperature_barostated v l1 p t n l2 :
  forces s = l1 ++ MonteCarloBarostat p t n :: l2 →
  barostats l1 = [] → barostats l2 = [] →
  set_temperature omm self v σ =
  (Return tt,
   mkStore (<[_system st :=
                with_forces s (l1 ++ MonteCarloBarostat p v n :: l2)]>
              (systems σ))
     (<[self := retemp st v]> (states σ))).
Proof.
  intros Hf H1 H2. rewrite set_temperature_start.
  rewrite (bind_Return _ _ _ _ _
             (find_barostat_barostated (σ1 v) _ _ _ _ _ _ _ Hs Hf H1 H2)).
  assert (Hi : forces s !! length l1 = Some (MonteCarloBarostat p t n))
    by (rewrite Hf; apply lookup_middle).
  rewrite (set_barostat_temperature (σ1 v) _ _ _ _ Hs Hi).
  rewrite Hf, insert_middle. reflexivity.
Qed.

Lemma set_temperature_foreign v l1 f l2 :
  forces s = l1 ++ f :: l2 → is_barostat f = true →
  is_MonteCarloBarostat f = false →
  barostats l1 = [] → barostats l2 = [] →
  ∃ e, set_temperature omm self v σ = (Raise e, σ1 v) ∧
       unsupported_or_missing e.
Proof.
  intros Hf Hb Hm H1 H2. rewrite set_temperature_start.
  destruct (find_barostat_foreign (σ1 v) _ _ _ _ _ Hs Hf Hb H1 H2) as [E|E].
  - rewrite (bind_Raise _ _ _ _ _ E). eexists. split; [reflexivity|].
    left. eauto.
  - rewrite (bind_Return _ _ _ _ _ E).
    assert (Hi : forces s !! length l1 = Some f)
      by (rewrite Hf; apply lookup_middle).
    rewrite (set_barostat_temperature (σ1 v) _ _ _ _ Hs Hi).
    destruct f; try discriminate Hm;
      (eexists; split; [reflexivity|right; reflexivity]).
Qed.

Lemma set_temperature_multiple v :
  (2 ≤ length (barostats (forces s)))%nat →
  set_temperature omm self v σ = (Raise multiple_barostats, σ1 v).
Proof.
  intros Hb. rewrite set_temperature_start.
  rewrite (bind_Raise _ _ _ _ _ (find_barostat_many (σ1 v) _ _ Hs Hb)).
  reflexivity.
Qed.

End OwnSystem.

(** *** The pressure setter *)

Lemma removeForce_Some σ l s i f :
  systems σ !! l = Some s → forces s !! i = Some f →
  removeForce l i σ =
  (Return tt,
   mkStore (<[l := with_forces s (delete i (forces s))]> (systems σ))
     (states σ)).
Proof.
  intros Hl Hi. unfold removeForce.
  rewrite (bind_Return _ _ _ _ _ (read_system_Some _ _ _ Hl)), Hi.
  reflexivity.
Qed.

Lemma addForce_Some σ l s f :
  systems σ !! l = Some s →
  addForce l f σ =
  (Return (length (forces s)),
   mkStore (<[l := with_forces s (forces s ++ [f])]> (systems σ))
     (states σ)).
Proof.
  intros Hl. unfold addForce.
  rewrite (bind_Return _ _ _ _ _ (read_system_Some _ _ _ Hl)). reflexivity.
Qed.

Section Pressure.

Variables (σ : Store) (self : loc) (st : ThermodynamicState) (s : System).
Hypothesis Hst : states σ !! self = Some st.
Hypothesis Hs : systems σ !! _system st = Some s.

Lemma set_pressure_None_unbarostated :
  barostats (forces s) = [] → set_pressure omm self None σ = (Return tt, σ).
Proof.
  intros Hb. unfold set_pressure.
  rewrite (bind_Return _ _ _ _ _ (read_state_Some _ _ _ Hst)).
  rewrite (bind_Return _ _ _ _ _ (find_barostat_index_none _ _ _ Hs Hb)).
  reflexivity.
Qed.

(** The index search does not look at the class of the force it
    finds: whatever the one barostat-like force is, it is removed. *)
Lemma set_pressure_None_one l1 f l2 :
  forces s = l1 ++ f :: l2 → is_barostat f = true →
  barostats l1 = [] → barostats l2 = [] →
  set_pressure omm self None σ =
  (Return tt,
   mkStore (<[_system st := with_forces s (l1 ++ l2)]> (systems σ))
     (states σ)).
Proof.
  intros Hf Hb H1 H2. unfold set_pressure.
  rewrite (bind_Return _ _ _ _ _ (read_state_Some _ _ _ Hst)).
  rewrite (bind_Return _ _ _ _ _
             (find_barostat_index_one _ _ _ _ _ _ Hs Hf Hb H1 H2)).
  assert (Hi : forces s !! length l1 = Some f)
    by (rewrite Hf; apply lookup_middle).
  rewrite (removeForce_Some _ _ _ _ _ Hs Hi), Hf, delete_middle_force.
  reflexivity.
Qed.

Lemma set_pressure_None_multiple :
  (2 ≤ length (barostats (forces s)))%nat →
  set_pressure omm self None σ = (Raise multiple_barostats, σ).
Proof.
  intros Hb. unfold set_pressure.
  rewrite (bind_Return _ _ _ _ _ (read_state_Some _ _ _ Hst)).
  rewrite (bind_Raise _ _ _ _ _ (find_barostat_index_many _ _ _ Hs Hb)).
  reflexivity.
Qed.

Lemma set_pressure_start v :
  set_pressure omm self (Some v) σ =
  if uses_pbc omm s
  then (barostat <- _find_barostat (_system st) ;;
        match barostat with
        | None =>
            addForce (_system st)
              (MonteCarloBarostat v (_temperature st) default_frequency) ;;;
            ret tt
        | Some b => setDefaultPressure b v
        end) σ
  else (Raise barostated_nonperiodic, σ).
Proof.
  unfold set_pressure.
  rewrite (bind_Return _ _ _ _ _ (read_state_Some _ _ _ Hst)).
  unfold usesPeriodicBoundaryConditions.
  rewrite (bind_Return _ _ σ (uses_pbc omm s) σ).
  2:{ rewrite (bind_Return _ _ _ _ _ (read_system_Some _ _ _ Hs)). done. }
  destruct (uses_pbc omm s); simpl; [|reflexivity].
  apply (bind_barostat_self _ _ _ _ Hst).
Qed.

Lemma set_pressure_nonperiodic v :
  uses_pbc omm s = false →
  set_pressure omm self (Some v) σ = (Raise barostated_nonperiodic, σ).
Proof. intros Hp. rewrite set_pressure_start, Hp. reflexivity. Qed.

Lemma set_pressure_unbarostated v :
  uses_pbc omm s = true → barostats (forces s) = [] →
  set_pressure omm self (Some v) σ =
  (Return tt,
   mkStore
     (<[_system st :=
          with_forces s
            (forces s ++
             [MonteCarloBarostat v (_temperature st) default_frequency])]>
        (systems σ))
     (states σ)).
Proof.
  intros Hp Hb. rewrite set_pressure_start, Hp.
  rewrite (bind_Return _ _ _ _ _ (find_barostat_none _ _ _ Hs Hb)).
  rewrite (bind_Return _ _ _ _ _ (addForce_Some _ _ _ _ Hs)). reflexivity.
Qed.

Lemma set_pressure_barostated v l1 p t n l2 :
  uses_pbc omm s = true →
  forces s = l1 ++ MonteCarloBarostat p t n :: l2 →
  barostats l1 = [] → barostats l2 = [] →
  set_pressure omm self (Some v) σ =
  (Return tt,
   mkStore (<[_system st :=
                with_forces s (l1 ++ MonteCarloBarostat v t n :: l2)]>
              (systems σ))
     (states σ)).
Proof.
  intros Hp Hf H1 H2. rewrite set_pressure_start, Hp.
  rewrite (bind_Return _ _ _ _ _
             (find_barostat_barostated _ _ _ _ _ _ _ _ Hs Hf H1 H2)).
  assert (Hi : forces s !! length l1 = Some (MonteCarloBarostat p t n))
    by (rewrite Hf; apply lookup_middle).
  rewrite (setDefaultPressure_force _ _ _ _ _ Hs Hi), Hf, insert_middle.
  reflexivity.
Qed.

Lemma set_pressure_foreign v l1 f l2 :
  uses_pbc omm s = true →
  forces s = l1 ++ f :: l2 → is_barostat f = true →
  is_MonteCarloBarostat f = false →
  barostats l1 = [] → barostats l2 = [] →
  ∃ e, set_pressure omm self (Some v) σ = (Raise e, σ) ∧
       unsupported_or_missing e.
Proof.
  intros Hp Hf Hb Hm H1 H2. rewrite set_pressure_start, Hp.
  destruct (find_barostat_foreign _ _ _ _ _ _ Hs Hf Hb H1 H2) as [E|E].
  - rewrite (bind_Raise _ _ _ _ _ E). eexists. split; [reflexivity|].
    left. eauto.
  - rewrite (bind_Return _ _ _ _ _ E).
    assert (Hi : forces s !! length l1 = Some f)
      by (rewrite Hf; apply lookup_middle).
    rewrite (setDefaultPressure_force _ _ _ _ _ Hs Hi).
    destruct f; try discriminate Hm;
      (eexists; split; [reflexivity|right; reflexivity]).
Qed.

Lemma set_pressure_multiple v :
  uses_pbc omm s = true →
  (2 ≤ length (barostats (forces s)))%nat →
  set_pressure omm self (Some v) σ = (Raise multiple_barostats, σ).
Proof.
  intros Hp Hb. rewrite set_pressure_start, Hp.
  rewrite (bind_Raise _ _ _ _ _ (find_barostat_many _ _ _ Hs Hb)).
  reflexivity.
Qed.

End Pressure.

(** *** The consistency check *)

Lemma scan_forces fs σ :
  for_each fs (λ force,
    match force with
    | NonbondedForce nonbonded_method _ =>
        if bool_decide (nonbonded_method ∈ _NONPERIODIC_NONBONDED_METHODS)
        then raise_ThermodynamicsError BAROSTATED_NONPERIODIC []
        else ret tt
    | _ => ret tt
    end) σ =
  (if existsb nonperiodic_nonbonded fs
   then Raise barostated_nonperiodic else Return tt, σ).
Proof.
  induction fs as [|f fs IH]; [reflexivity|].
  cbn [for_each existsb]. unfold bind at 1.
  destruct f as [p t n|m params|name periodic params]; cbn [nonperiodic_nonbonded].
  - exact IH.
  - destruct (bool_decide (m ∈ _NONPERIODIC_NONBONDED_METHODS)).
    + reflexivity.
    + exact IH.
  - exact IH.
Qed.

Lemma getForces_Some σ l s :
  systems σ !! l = Some s → getForces l σ = (Return (forces s), σ).
Proof.
  intros Hl. unfold getForces.
  rewrite (bind_Return _ _ _ _ _ (read_system_Some _ _ _ Hl)). reflexivity.
Qed.

Section Check.

Variables (σ : Store) (self : loc) (st : ThermodynamicState).
Variables (value : loc) (sv : System).
Hypothesis Hst : states σ !! self = Some st.
Hypothesis Hv : systems σ !! value = Some sv.

Lemma check_unbarostated :
  barostats (forces sv) = [] →
  _check_system_consistency omm self value σ = (Return tt, σ).
Proof.
  intros Hb. unfold _check_system_consistency.
  rewrite (bind_Return _ _ _ _ _ (find_barostat_none _ _ _ Hv Hb)).
  reflexivity.
Qed.

Lemma check_multiple :
  (2 ≤ length (barostats (forces sv)))%nat →
  _check_system_consistency omm self value σ = (Raise multiple_barostats, σ).
Proof.
  intros Hb. unfold _check_system_consistency.
  rewrite (bind_Raise _ _ _ _ _ (find_barostat_many _ _ _ Hv Hb)).
  reflexivity.
Qed.

Lemma check_foreign l1 f l2 :
  forces sv = l1 ++ f :: l2 → is_barostat f = true →
  is_MonteCarloBarostat f = false →
  barostats l1 = [] → barostats l2 = [] →
  ∃ e, _check_system_consistency omm self value σ = (Raise e, σ) ∧
       unsupported_or_missing e.
Proof.
  intros Hf Hb Hm H1 H2. unfold _check_system_consistency.
  destruct (find_barostat_foreign _ _ _ _ _ _ Hv Hf Hb H1 H2) as [E|E].
  - rewrite (bind_Raise _ _ _ _ _ E). eexists. split; [reflexivity|].
    left. eauto.
  - rewrite (bind_Return _ _ _ _ _ E).
    assert (Hi : forces sv !! length l1 = Some f)
      by (rewrite Hf; apply lookup_middle).
    exists AttributeError. split; [|right; reflexivity].
    apply bind_Raise. unfold _is_barostat_consistent.
    apply bind_Raise. rewrite (get_barostat_temperature _ _ _ _ _ Hv Hi).
    destruct f; try reflexivity. discriminate Hm.
Qed.

Lemma check_barostated l1 p t n l2 r :
  forces sv = l1 ++ MonteCarloBarostat p t n :: l2 →
  barostats l1 = [] → barostats l2 = [] →
  get_pressure self σ = (r, σ) →
  _check_system_consistency omm self value σ =
  (if bool_decide (t = _temperature st)
   then match r with
        | Return pressure =>
            if bool_decide (Some p = pressure)
            then if existsb nonperiodic_nonbonded (forces sv)
                 then Raise barostated_nonperiodic else Return tt
            else Raise inconsistent_barostat
        | Raise e => Raise e
        end
   else Raise inconsistent_barostat, σ).
Proof.
  intros Hf H1 H2 Hp. unfold _check_system_consistency.
  rewrite (bind_Return _ _ _ _ _
             (find_barostat_barostated _ _ _ _ _ _ _ _ Hv Hf H1 H2)).
  assert (Hi : forces sv !! length l1 = Some (MonteCarloBarostat p t n))
    by (rewrite Hf; apply lookup_middle).
  unfold _is_barostat_consistent.
  set (b := mkForceRef value (length l1)).
  assert (Hc :
    (barostat_temperature <-
       try_except_AttributeError
         (getDefaultTemperature omm b) (getTemperature omm b) ;;
     barostat_pressure <- getDefaultPressure b ;;
     temperature <- get_temperature self ;;
     if bool_decide (barostat_temperature = temperature)
     then pressure <- get_pressure self ;;
          ret (bool_decide (Some barostat_pressure = pressure))
     else ret false) σ =
    (if bool_decide (t = _temperature st)
     then match r with
          | Return pressure => Return (bool_decide (Some p = pressure))
          | Raise e => Raise e
          end
     else Return false, σ)).
  { rewrite (bind_Return _ _ _ _ _
               (get_barostat_temperature _ _ _ _ _ Hv Hi)).
    rewrite (bind_Return _ _ _ _ _
               (getDefaultPressure_force _ _ _ _ _ Hv Hi)).
    rewrite (bind_Return _ _ _ _ _ (get_temperature_self _ _ _ Hst)).
    destruct (bool_decide (t = _temperature st)); [|reflexivity].
    unfold bind. rewrite Hp. destruct r; reflexivity. }
  unfold bind at 1. rewrite Hc.
  destruct (bool_decide (t = _temperature st)); [|reflexivity].
  destruct r as [pressure|e]; [|reflexivity].
  destruct (bool_decide (Some p = pressure)); [|reflexivity].
  cbn [negb]. rewrite (bind_Return _ _ _ _ _ (getForces_Some _ _ _ Hv)).
  apply scan_forces.
Qed.

End Check.

(** ** Consistent states *)

Lemma nonbarostats_id fs : barostats fs = [] → nonbarostats fs = fs.
Proof.
  unfold barostats, nonbarostats. induction fs as [|f fs IH]; [done|].
  simpl. destruct (is_barostat f); [discriminate|].
  intros H. simpl. rewrite (IH H). reflexivity.
Qed.

Lemma nonbarostats_split l1 f l2 :
  is_barostat f = true → barostats l1 = [] → barostats l2 = [] →
  nonbarostats (l1 ++ f :: l2) = l1 ++ l2.
Proof.
  intros Hf H1 H2. unfold nonbarostats. rewrite List.filter_app. simpl.
  rewrite Hf. simpl.
  fold (nonbarostats l1). fold (nonbarostats l2).
  rewrite (nonbarostats_id _ H1), (nonbarostats_id _ H2). reflexivity.
Qed.

Lemma with_forces_id s : with_forces s (forces s) = s.
Proof. destruct s. reflexivity. Qed.

Lemma standard_unbarostated s : barostats (forces s) = [] → standard s = s.
Proof.
  intros H. unfold standard. rewrite (nonbarostats_id _ H).
  apply with_forces_id.
Qed.

Lemma standard_split s fs l1 f l2 :
  fs = l1 ++ f :: l2 → is_barostat f = true →
  barostats l1 = [] → barostats l2 = [] →
  standard (with_forces s fs) = with_forces s (l1 ++ l2).
Proof.
  intros -> Hf H1 H2. unfold standard. simpl.
  rewrite (nonbarostats_split _ _ _ Hf H1 H2). reflexivity.
Qed.

Lemma standard_own_split s l1 f l2 :
  forces s = l1 ++ f :: l2 → is_barostat f = true →
  barostats l1 = [] → barostats l2 = [] →
  standard s = with_forces s (l1 ++ l2).
Proof.
  intros Hs Hf H1 H2. rewrite <- (with_forces_id s) at 1.
  eapply standard_split; eauto.
Qed.

Lemma standard_append s f :
  is_barostat f = true → barostats (forces s) = [] →
  standard (with_forces s (forces s ++ [f])) = standard s.
Proof.
  intros Hf Hb.
  rewrite (standard_split s _ (forces s) f [] eq_refl Hf Hb eq_refl).
  rewrite app_nil_r, with_forces_id, (standard_unbarostated _ Hb).
  reflexivity.
Qed.

Lemma consistent_split T l1 p n l2 :
  barostats l1 = [] → barostats l2 = [] →
  consistent T (l1 ++ MonteCarloBarostat p T n :: l2).
Proof.
  intros H1 H2. right. exists p, n. apply barostats_split; auto.
Qed.

Lemma consistent_barostated T l1 p t n l2 :
  barostats l1 = [] → barostats l2 = [] →
  consistent T (l1 ++ MonteCarloBarostat p t n :: l2) → t = T.
Proof.
  intros H1 H2 [H|(p' & n' & H)];
    rewrite (barostats_split l1 (MonteCarloBarostat p t n) l2 eq_refl H1 H2)
      in H; congruence.
Qed.

(** ** What the setters change *)

Lemma store_insert_id σ l s :
  systems σ !! l = Some s →
  σ = mkStore (<[l := s]> (systems σ)) (states σ).
Proof. intros H. destruct σ. simpl in *. rewrite (insert_id _ _ _ H). done. Qed.

Lemma store_insert_id_states σ l s sts :
  systems σ !! l = Some s →
  mkStore (systems σ) sts = mkStore (<[l := s]> (systems σ)) sts.
Proof. intros H. rewrite (insert_id _ _ _ H). done. Qed.

Lemma is_barostat_MCB p t n : is_barostat (MonteCarloBarostat p t n) = true.
Proof. reflexivity. Qed.

Lemma barostats_with_appended fs f :
  barostats fs = [] → is_barostat f = true → barostats (fs ++ [f]) = [f].
Proof. intros Hb Hf. apply (barostats_split fs f [] Hf Hb eq_refl). Qed.

(** The temperature setter writes the temperature of the state and, at
    most, the temperature of the one barostat of the owned system. *)
Lemma set_temperature_effect σ self st s v r σ' :
  states σ !! self = Some st → systems σ !! _system st = Some s →
  set_temperature omm self v σ = (r, σ') →
  ∃ s', σ' = mkStore (<[_system st := s']> (systems σ))
                (<[self := retemp st v]> (states σ)) ∧
        standard s' = standard s ∧
        (r = Return tt → consistent v (forces s')) ∧
        (∀ e, r = Raise e → s' = s).
Proof.
  intros Hst Hs H.
  destruct (shape (forces s)) as [Hb|l1 p t n l2 Hf H1 H2|l1 f l2 Hf Hb Hm H1 H2|Hb].
  - rewrite (set_temperature_unbarostated _ _ _ _ Hst Hs _ Hb) in H.
    injection H as <- <-. exists s. split_and!; auto.
    + apply store_insert_id_states, Hs.
    + intros _. left. exact Hb.
  - rewrite (set_temperature_barostated _ _ _ _ Hst Hs _ _ _ _ _ _ Hf H1 H2)
      in H.
    injection H as <- <-. eexists. split_and!; [reflexivity| | |discriminate].
    + rewrite (standard_split s _ l1 _ l2 eq_refl (is_barostat_MCB _ _ _) H1 H2).
      symmetry. apply (standard_own_split s _ _ _ Hf (is_barostat_MCB _ _ _) H1 H2).
    + intros _. apply consistent_split; auto.
  - destruct (set_temperature_foreign _ _ _ _ Hst Hs v _ _ _ Hf Hb Hm H1 H2)
      as (e & E & _).
    rewrite E in H. injection H as <- <-. exists s. split_and!; auto.
    + apply store_insert_id_states, Hs.
    + discriminate.
  - rewrite (set_temperature_multiple _ _ _ _ Hst Hs _ Hb) in H.
    injection H as <- <-. exists s. split_and!; auto.
    + apply store_insert_id_states, Hs.
    + discriminate.
Qed.

(** The pressure setter writes the owned system only, and only its
    barostat. *)
Lemma set_pressure_effect σ self st s P r σ' :
  states σ !! self = Some st → systems σ !! _system st = Some s →
  set_pressure omm self P σ = (r, σ') →
  ∃ s', σ' = mkStore (<[_system st := s']> (systems σ)) (states σ) ∧
        standard s' = standard s ∧
        (r = Return tt →
         consistent (_temperature st) (forces s) →
         consistent (_temperature st) (forces s')) ∧
        (∀ e, r = Raise e → s' = s).
Proof.
  intros Hst Hs H.
  assert (Hid : ∀ e, (r, σ') = (Raise e, σ) →
    ∃ s', σ' = mkStore (<[_system st := s']> (systems σ)) (states σ) ∧
          standard s' = standard s ∧
          (r = Return tt →
           consistent (_temperature st) (forces s) →
           consistent (_temperature st) (forces s')) ∧
          (∀ e, r = Raise e → s' = s)).
  { intros e [= -> ->]. exists s.
    split_and!; auto; try discriminate. apply store_insert_id, Hs. }
  destruct P as [v|].
  - destruct (uses_pbc omm s) eqn:Hp.
    2:{ rewrite (set_pressure_nonperiodic _ _ _ _ Hst Hs _ Hp) in H.
        eapply Hid. symmetry. exact H. }
    destruct (shape (forces s))
      as [Hb|l1 p t n l2 Hf H1 H2|l1 f l2 Hf Hb Hm H1 H2|Hb].
    + rewrite (set_pressure_unbarostated _ _ _ _ Hst Hs _ Hp Hb) in H.
      injection H as <- <-. eexists.
      split_and!; [reflexivity| | |discriminate].
      * apply standard_append; [apply is_barostat_MCB|exact Hb].
      * intros _ _. right. do 2 eexists. simpl.
        apply barostats_with_appended; [exact Hb|apply is_barostat_MCB].
    + rewrite (set_pressure_barostated _ _ _ _ Hst Hs _ _ _ _ _ _ Hp Hf H1 H2)
        in H.
      injection H as <- <-. eexists.
      split_and!; [reflexivity| | |discriminate].
      * rewrite (standard_split s _ l1 _ l2 eq_refl (is_barostat_MCB _ _ _) H1 H2).
        symmetry. apply (standard_own_split s _ _ _ Hf (is_barostat_MCB _ _ _) H1 H2).
      * intros _ Hc. rewrite Hf in Hc.
        rewrite <- (consistent_barostated _ _ _ _ _ _ H1 H2 Hc).
        apply consistent_split; auto.
    + destruct (set_pressure_foreign _ _ _ _ Hst Hs v _ _ _ Hp Hf Hb Hm H1 H2)
        as (e & E & _).
      rewrite E in H. eapply Hid. symmetry. exact H.
    + rewrite (set_pressure_multiple _ _ _ _ Hst Hs _ Hp Hb) in H.
      eapply Hid. symmetry. exact H.
  - destruct (shape (forces s))
      as [Hb|l1 p t n l2 Hf H1 H2|l1 f l2 Hf Hb Hm H1 H2|Hb].
    + rewrite (set_pressure_None_unbarostated _ _ _ _ Hst Hs Hb) in H.
      injection H as <- <-. exists s.
      split_and!; auto; try discriminate. apply store_insert_id, Hs.
    + rewrite (set_pressure_None_one _ _ _ _ Hst Hs _ _ _ Hf (is_barostat_MCB _ _ _) H1 H2)
        in H.
      injection H as <- <-. eexists.
      split_and!; [reflexivity| | |discriminate].
      * rewrite (standard_own_split s _ _ _ Hf (is_barostat_MCB _ _ _) H1 H2).
        apply standard_unbarostated. simpl.
        rewrite barostats_app, H1, H2. reflexivity.
      * intros _ _. left. simpl. rewrite barostats_app, H1, H2. reflexivity.
    + rewrite (set_pressure_None_one _ _ _ _ Hst Hs _ _ _ Hf Hb H1 H2) in H.
      injection H as <- <-. eexists.
      split_and!; [reflexivity| | |discriminate].
      * rewrite (standard_own_split s _ _ _ Hf Hb H1 H2).
        apply standard_unbarostated. simpl.
        rewrite barostats_app, H1, H2. reflexivity.
      * intros _ _. left. simpl. rewrite barostats_app, H1, H2. reflexivity.
    + rewrite (set_pressure_None_multiple _ _ _ _ Hst Hs Hb) in H.
      eapply Hid. symmetry. exact H.
Qed.

(** ** The system setter and the constructor *)

Lemma check_Return σ self st value sv σ' :
  states σ !! self = Some st → systems σ !! value = Some sv →
  _check_system_consistency omm self value σ = (Return tt, σ') →
  consistent (_temperature st) (forces sv).
Proof.
  intros Hst Hv H.
  destruct (shape (forces sv))
    as [Hb|l1 p t n l2 Hf H1 H2|l1 f l2 Hf Hb Hm H1 H2|Hb].
  - left. exact Hb.
  - destruct (get_pressure self σ) as [r σ1] eqn:E.
    pose proof (read_only_get_pressure self σ) as Hro.
    rewrite E in Hro. simpl in Hro. subst σ1.
    rewrite (check_barostated _ _ _ _ _ Hst Hv _ _ _ _ _ _ Hf H1 H2 E) in H.
    destruct (bool_decide_reflect (t = _temperature st)) as [->|];
      [|discriminate].
    rewrite Hf. apply consistent_split; auto.
  - destruct (check_foreign σ self _ _ Hv _ _ _ Hf Hb Hm H1 H2) as (e & E & _).
    rewrite E in H. discriminate.
  - rewrite (check_multiple σ self _ _ Hv Hb) in H. discriminate.
Qed.

Lemma set_system_run σ self st value sv :
  states σ !! self = Some st → systems σ !! value = Some sv →
  set_system omm self value σ =
  match (_check_system_consistency omm self value σ).1 with
  | Return _ =>
      let copy := fresh (dom (systems σ)) in
      (Return tt,
       mkStore (<[copy := sv]> (systems σ))
         (<[self := mkState copy (_temperature st) None]> (states σ)))
  | Raise e => (Raise e, σ)
  end.
Proof.
  intros Hst Hv. unfold set_system. unfold bind at 1.
  pose proof (read_only_check_system_consistency self value σ) as Hro.
  destruct (_check_system_consistency omm self value σ) as [[[]|e] σ1];
    simpl in Hro; subst σ1; [|reflexivity].
  unfold deepcopy.
  rewrite (bind_Return _ _ σ (fresh (dom (systems σ)))
             (mkStore (<[fresh (dom (systems σ)) := sv]> (systems σ))
                (states σ))).
  2:{ rewrite (bind_Return _ _ _ _ _ (read_system_Some _ _ _ Hv)). done. }
  rewrite (bind_Return _ _ _ _ _
             (read_state_Some
                (mkStore (<[fresh (dom (systems σ)) := sv]> (systems σ))
                   (states σ)) self st Hst)).
  reflexivity.
Qed.

Lemma fresh_system σ : systems σ !! fresh (dom (systems σ)) = None.
Proof. apply not_elem_of_dom, is_fresh. Qed.

Lemma fresh_state σ : states σ !! fresh (dom (states σ)) = None.
Proof. apply not_elem_of_dom, is_fresh. Qed.

Lemma init_run σ system s T P :
  systems σ !! system = Some s →
  let copy := fresh (dom (systems σ)) in
  let self := fresh (dom (states σ)) in
  __init__ omm system T P σ =
  (set_temperature omm self T ;;;
   match P with
   | Some p => set_pressure omm self (Some p)
   | None => ret tt
   end ;;;
   _check_internal_consistency omm self ;;;
   ret self)
    (mkStore (<[copy := s]> (systems σ))
       (<[self := mkState copy T None]> (states σ))).
Proof.
  intros Hs copy self. unfold __init__, deepcopy.
  rewrite (bind_Return _ _ σ copy
             (mkStore (<[copy := s]> (systems σ)) (states σ))).
  2:{ rewrite (bind_Return _ _ _ _ _ (read_system_Some _ _ _ Hs)). done. }
  reflexivity.
Qed.

(** The constructor works on a copy at a fresh address and on the new
    state object; what it leaves at the copy differs from the system it
    was given in the barostat at most. *)
Lemma init_effect σ system s T P r σ' :
  systems σ !! system = Some s →
  __init__ omm system T P σ = (r, σ') →
  let copy := fresh (dom (systems σ)) in
  let self := fresh (dom (states σ)) in
  ∃ s', σ' = mkStore (<[copy := s']> (systems σ))
                (<[self := mkState copy T None]> (states σ)) ∧
        standard s' = standard s ∧
        (∀ a, r = Return a → a = self ∧ consistent T (forces s')).
Proof.
  intros Hs H copy self. rewrite (init_run _ _ _ _ _ Hs) in H.
  fold copy self in H.
  set (st0 := mkState copy T None) in *.
  set (σ0 := mkStore (<[copy := s]> (systems σ)) (<[self := st0]> (states σ)))
    in *.
  assert (Hst0 : states σ0 !! self = Some st0) by apply lookup_insert_eq.
  assert (Hs0 : systems σ0 !! _system st0 = Some s) by apply lookup_insert_eq.
  unfold bind at 1 in H.
  destruct (set_temperature omm self T σ0) as [r1 σ1] eqn:E1.
  destruct (set_temperature_effect _ _ _ _ _ _ _ Hst0 Hs0 E1)
    as (s1 & -> & Hstd1 & Hc1 & _).
  unfold σ0 in H. cbn [systems states] in H.
  change (retemp st0 T) with st0 in H.
  rewrite !insert_insert_eq in H.
  destruct r1 as [[]|e1].
  2:{ injection H as <- <-. exists s1. split_and!; auto. discriminate. }
  set (σ1 := mkStore (<[copy := s1]> (systems σ)) (<[self := st0]> (states σ)))
    in *.
  assert (Hst1 : states σ1 !! self = Some st0) by apply lookup_insert_eq.
  assert (Hs1 : systems σ1 !! _system st0 = Some s1) by apply lookup_insert_eq.
  assert (Hp : ∃ r2 s2,
    (match P with
     | Some p => set_pressure omm self (Some p)
     | None => ret tt
     end) σ1 =
    (r2, mkStore (<[copy := s2]> (systems σ)) (<[self := st0]> (states σ))) ∧
    standard s2 = standard s ∧
    (r2 = Return tt → consistent T (forces s2))).
  { destruct P as [p|].
    - destruct (set_pressure omm self (Some p) σ1) as [r2 σ2] eqn:E2.
      destruct (set_pressure_effect _ _ _ _ _ _ _ Hst1 Hs1 E2)
        as (s2 & -> & Hstd2 & Hc2 & _).
      exists r2, s2. unfold σ1. cbn [systems states].
      rewrite insert_insert_eq. split_and!; [reflexivity|congruence|].
      intros Hr. apply (Hc2 Hr). apply Hc1. reflexivity.
    - exists (Return tt), s1. split_and!; auto. }
  destruct Hp as (r2 & s2 & E2 & Hstd2 & Hc2).
  unfold bind at 1 in H. rewrite E2 in H.
  destruct r2 as [[]|e2].
  2:{ injection H as <- <-. exists s2. split_and!; auto. discriminate. }
  unfold bind at 1 in H.
  match type of H with
  | context [_check_internal_consistency omm self ?σ2] =>
      pose proof (read_only_bind _ _ (read_only_read_state self)
                    (λ st, read_only_check_system_consistency self
                             (_system st)) σ2) as Hro;
      fold (_check_internal_consistency omm self) in Hro;
      destruct (_check_internal_consistency omm self σ2) as [[[]|e3] σ3]
  end; simpl in Hro; subst σ3.
  - injection H as <- <-. exists s2. split_and!; auto.
    intros a [= <-]. auto.
  - injection H as <- <-. exists s2. split_and!; auto. discriminate.
Qed.

(** ** The invariant of a state *)

Lemma valid_invariant σ self : valid σ self → invariant σ self.
Proof.
  intros (st & s & Hst & Hs & [Hb|(p & n & Hb)]); exists st, s.
  - split_and!; auto.
    + rewrite Hb. simpl. lia.
    + intros b. rewrite Hb. intros Hin. inversion Hin.
    + split; auto. intros _. eapply get_pressure_unbarostated; eauto.
  - destruct (barostats_singleton _ _ Hb) as (l1 & l2 & Hf & _ & H1 & H2).
    pose proof (get_pressure_barostated _ _ _ _ Hst Hs _ _ _ _ _ Hf H1 H2)
      as Hp.
    split_and!; auto.
    + rewrite Hb. simpl. lia.
    + intros b. rewrite Hb. intros ->%list_elem_of_singleton. eauto.
    + rewrite Hp, Hb. split; intros; discriminate.
Qed.

Lemma invariant_valid σ self : invariant σ self → valid σ self.
Proof.
  intros (st & s & Hst & Hs & Hlen & Hsup & _). exists st, s.
  split_and!; auto.
  destruct (barostats (forces s)) as [|b [|b' rest]] eqn:Hb.
  - left. exact Hb.
  - destruct (Hsup b) as (p & n & -> & _); [apply list_elem_of_here|].
    right. eauto.
  - simpl in Hlen. lia.
Qed.

Lemma invariant_consistent σ self st s :
  invariant σ self →
  states σ !! self = Some st → systems σ !! _system st = Some s →
  consistent (_temperature st) (forces s).
Proof.
  intros Hinv Hst Hs.
  destruct (invariant_valid _ _ Hinv) as (st' & s' & Hst' & Hs' & Hc).
  rewrite Hst in Hst'. injection Hst' as <-.
  rewrite Hs in Hs'. injection Hs' as <-. exact Hc.
Qed.

Lemma construction_valid σ system s T P self σ' :
  systems σ !! system = Some s →
  __init__ omm system T P σ = (Return self, σ') → valid σ' self.
Proof.
  intros Hs H.
  destruct (init_effect _ _ _ _ _ _ _ Hs H) as (s' & -> & _ & Hr).
  destruct (Hr self eq_refl) as [-> Hc].
  eexists _, s'. cbn [systems states].
  split_and!; [apply lookup_insert_eq|apply lookup_insert_eq|exact Hc].
Qed.


Lemma pressure_assignment_valid σ self P σ' :
  valid σ self →
  set_pressure omm self P σ = (Return tt, σ') → valid σ' self.
Proof.
  intros (st & s & Hst & Hs & Hc0) H.
  destruct (set_pressure_effect _ _ _ _ _ _ _ Hst Hs H)
    as (s' & -> & _ & Hc & _).
  exists st, s'. cbn [systems states].
  split_and!; [exact Hst|apply lookup_insert_eq|auto].
Qed.

Lemma system_assignment_valid σ self st value sv σ' :
  states σ !! self = Some st → systems σ !! value = Some sv →
  set_system omm self value σ = (Return tt, σ') → valid σ' self.
Proof.
  intros Hst Hv H. rewrite (set_system_run _ _ _ _ _ Hst Hv) in H.
  destruct (_check_system_consistency omm self value σ) as [[[]|e] σ1] eqn:E;
    simpl in H; [|discriminate].
  injection H as <-. eexists _, sv. cbn [systems states].
  split_and!; [apply lookup_insert_eq|apply lookup_insert_eq|].
  simpl. eapply check_Return; eauto.
Qed.


(** C3.  When the assignment to [system] raises a
    [ThermodynamicsError], nothing has been written: the state object,
    with its owned system and its cached hash, is what it was. *)
Theorem system_assignment_failure σ self value code message σ' :
  set_system omm self value σ =
    (Raise (ThermodynamicsError code message), σ') →
  σ' = σ ∧
  states σ' !! self = states σ !! self ∧
  ∀ st, states σ !! self = Some st →
        systems σ' !! _system st = systems σ !! _system st.
Proof.
  intros H. enough (σ' = σ) as -> by auto.
  unfold set_system in H. unfold bind at 1 in H.
  pose proof (read_only_check_system_consistency self value σ) as Hro.
  destruct (_check_system_consistency omm self value σ) as [[[]|e] σ1];
    simpl in Hro; subst σ1.
  - unfold deepcopy, bind, read_system, new_system, read_state in H.
    destruct (systems σ !! value); [|discriminate]. simpl in H.
    destruct (states σ !! self); discriminate.
  - injection H as _ <-. reflexivity.
Qed.

Lemma read_system_None σ l :
  systems σ !! l = None → read_system l σ = (Raise DanglingReference, σ).
Proof. unfold read_system. intros ->. reflexivity. Qed.

(** C8.  Constructing a state, whether it succeeds or raises, leaves
    every object of the store as it was, the system it was given among
    them: what it writes, it writes at the address of the copy it took
    on entry and at the address of the new state. *)
Theorem constructor_frame σ system T P :
  let σ' := (__init__ omm system T P σ).2 in
  systems σ' !! system = systems σ !! system ∧
  systems σ ⊆ systems σ' ∧
  states σ ⊆ states σ'.
Proof.
  intros σ'. enough (systems σ ⊆ systems σ' ∧ states σ ⊆ states σ') as [H1 H2].
  { split_and!; auto.
    destruct (systems σ !! system) as [s|] eqn:Hs.
    - eapply lookup_weaken; eauto.
    - subst σ'. unfold __init__, deepcopy.
      rewrite (bind_Raise _ _ σ DanglingReference σ); [exact Hs|].
      rewrite (bind_Raise _ _ _ _ _ (read_system_None _ _ Hs)). done. }
  subst σ'. destruct (systems σ !! system) as [s|] eqn:Hs.
  - destruct (__init__ omm system T P σ) as [r σ'] eqn:H.
    destruct (init_effect _ _ _ _ _ _ _ Hs H) as (s' & -> & _).
    cbn [snd systems states]. split.
    + apply insert_subseteq, fresh_system.
    + apply insert_subseteq, fresh_state.
  - unfold __init__, deepcopy.
    rewrite (bind_Raise _ _ σ DanglingReference σ); [done|].
    rewrite (bind_Raise _ _ _ _ _ (read_system_None _ _ Hs)). done.
Qed.

(** ** The pressure property *)

Lemma consistent_cases T fs :
  consistent T fs →
  barostats fs = [] ∨
  ∃ l1 p n l2, fs = l1 ++ MonteCarloBarostat p T n :: l2 ∧
               barostats l1 = [] ∧ barostats l2 = [].
Proof.
  intros [Hb|(p & n & Hb)]; [left; exact Hb|right].
  destruct (barostats_singleton _ _ Hb) as (l1 & l2 & Hf & _ & H1 & H2).
  eauto 10.
Qed.

Section PressureProperty.

Variables (σ : Store) (self : loc) (st : ThermodynamicState) (s : System).
Hypothesis Hst : states σ !! self = Some st.
Hypothesis Hs : systems σ !! _system st = Some s.
Hypothesis Hc : consistent (_temperature st) (forces s).

Lemma set_then_get_pressure P :
  uses_pbc omm s = true →
  ∃ σ', set_pressure omm self (Some P) σ = (Return tt, σ') ∧
        get_pressure self σ' = (Return (Some P), σ').
Proof.
  intros Hp.
  destruct (consistent_cases _ _ Hc) as [Hb|(l1 & p & n & l2 & Hf & H1 & H2)].
  - eexists. split; [apply (set_pressure_unbarostated _ _ _ _ Hst Hs _ Hp Hb)|].
    eapply (get_pressure_barostated _ self st); cbn [systems states].
    + exact Hst.
    + apply lookup_insert_eq.
    + reflexivity.
    + exact Hb.
    + reflexivity.
  - eexists.
    split; [apply (set_pressure_barostated _ _ _ _ Hst Hs _ _ _ _ _ _ Hp Hf H1 H2)|].
    eapply (get_pressure_barostated _ self st); cbn [systems states].
    + exact Hst.
    + apply lookup_insert_eq.
    + reflexivity.
    + exact H1.
    + exact H2.
Qed.

Lemma remove_pressure :
  ∃ s', set_pressure omm self None σ =
          (Return tt,
           mkStore (<[_system st := s']> (systems σ)) (states σ)) ∧
        barostats (forces s') = [] ∧
        (barostats (forces s) = [] → s' = s).
Proof.
  destruct (consistent_cases _ _ Hc) as [Hb|(l1 & p & n & l2 & Hf & H1 & H2)].
  - exists s. split_and!; auto.
    rewrite (set_pressure_None_unbarostated _ _ _ _ Hst Hs Hb).
    f_equal. apply store_insert_id, Hs.
  - eexists. split_and!.
    + apply (set_pressure_None_one _ _ _ _ Hst Hs _ _ _ Hf
               (is_barostat_MCB _ _ _) H1 H2).
    + simpl. rewrite barostats_app, H1, H2. reflexivity.
    + intros Hb. rewrite Hf in Hb.
      rewrite (barostats_split _ _ _ (is_barostat_MCB _ _ _) H1 H2) in Hb.
      discriminate.
Qed.

End PressureProperty.

(** X24.  Assigning [None] to the pressure of a state that satisfies
    the invariant succeeds and removes the barostat from the owned
    system, after which the pressure reads [None]; when the owned
    system has no barostat it changes nothing; and assigning [None]
    twice is assigning it once. *)
Theorem pressure_removal σ self st s :
  invariant σ self →
  states σ !! self = Some st → systems σ !! _system st = Some s →
  (∃ σ' s', set_pressure omm self None σ = (Return tt, σ') ∧
            systems σ' !! _system st = Some s' ∧
            barostats (forces s') = [] ∧
            standard s' = standard s ∧
            get_pressure self σ' = (Return None, σ')) ∧
  (barostats (forces s) = [] →
   set_pressure omm self None σ = (Return tt, σ)) ∧
  (set_pressure omm self None ;;; set_pressure omm self None) σ
    = set_pressure omm self None σ.
Proof.
  intros Hinv Hst Hs.
  pose proof (invariant_consistent _ _ _ _ Hinv Hst Hs) as Hc.
  destruct (remove_pressure _ _ _ _ Hst Hs Hc) as (s' & E & Hb' & Hid).
  set (σ' := mkStore (<[_system st := s']> (systems σ)) (states σ)) in *.
  assert (Hs' : systems σ' !! _system st = Some s') by apply lookup_insert_eq.
  split_and!.
  - exists σ', s'. split_and!; auto.
    + destruct (set_pressure_effect _ _ _ _ _ _ _ Hst Hs E)
        as (s2 & Hσ & Hstd & _).
      assert (Heq : systems σ' !! _system st = Some s2)
        by (rewrite Hσ; apply lookup_insert_eq).
      rewrite Hs' in Heq. injection Heq as ->. exact Hstd.
    + apply (get_pressure_unbarostated σ' self st s' Hst Hs' Hb').
  - intros Hb. rewrite E. f_equal. unfold σ'. rewrite (Hid Hb).
    symmetry. apply store_insert_id, Hs.
  - rewrite (bind_Return _ _ _ _ _ E), E.
    apply (set_pressure_None_unbarostated σ' self st s' Hst Hs' Hb').
Qed.

(** X25.  For a state whose owned system is consistent with it and
    does not use periodic boundary conditions: assigning a pressure
    raises [BAROSTATED_NONPERIODIC] and writes nothing; the pressure
    reads [None] exactly when the owned system holds no barostat, and
    so for every such state where OpenMM counts a barostat as a
    periodic force. *)
Theorem nonperiodic_state_pressure σ self st s :
  states σ !! self = Some st → systems σ !! _system st = Some s →
  consistent (_temperature st) (forces s) →
  uses_pbc omm s = false →
  (∀ v, set_pressure omm self (Some v) σ
        = (Raise barostated_nonperiodic, σ)) ∧
  (get_pressure self σ = (Return None, σ) ↔ barostats (forces s) = []) ∧
  ((∀ p t n, MonteCarloBarostat p t n ∈ forces s → uses_pbc omm s = true) →
   get_pressure self σ = (Return None, σ)).
Proof.
  intros Hst Hs Hc Hp.
  assert (Hnone : get_pressure self σ = (Return None, σ)
                  ↔ barostats (forces s) = []).
  { split.
    - intros H.
      destruct (consistent_cases _ _ Hc)
        as [Hb|(l1 & p & n & l2 & Hf & H1 & H2)]; [exact Hb|].
      rewrite (get_pressure_barostated _ _ _ _ Hst Hs _ _ _ _ _ Hf H1 H2)
        in H.
      discriminate H.
    - apply (get_pressure_unbarostated _ _ _ _ Hst Hs). }
  split_and!.
  - intros v. apply (set_pressure_nonperiodic _ _ _ _ Hst Hs _ Hp).
  - exact Hnone.
  - intros Hper. apply Hnone.
    destruct (consistent_cases _ _ Hc)
      as [Hb|(l1 & p & n & l2 & Hf & _)]; [exact Hb|].
    rewrite (Hper p (_temperature st) n) in Hp; [discriminate|].
    rewrite Hf. apply elem_of_app. right. apply list_elem_of_here.
Qed.

(** ** The hash of the standard system *)

Lemma at_most_one fs :
  (length (barostats fs) ≤ 1)%nat →
  barostats fs = [] ∨
  ∃ l1 f l2, fs = l1 ++ f :: l2 ∧ is_barostat f = true ∧
             barostats l1 = [] ∧ barostats l2 = [].
Proof.
  intros Hlen.
  destruct (shape fs) as [Hb|l1 p t n l2 Hf H1 H2|l1 f l2 Hf Hb Hm H1 H2|Hb].
  - left. exact Hb.
  - right. exists l1, (MonteCarloBarostat p t n), l2. auto.
  - right. eauto 10.
  - lia.
Qed.

Lemma consistent_at_most_one T fs :
  consistent T fs → (length (barostats fs) ≤ 1)%nat.
Proof. intros [Hb|(p & n & Hb)]; rewrite Hb; simpl; lia. Qed.

Lemma get_standard_system_hash_run σ l s :
  systems σ !! l = Some s → (length (barostats (forces s)) ≤ 1)%nat →
  _get_standard_system_hash omm l σ =
  (Return (system_hash omm s),
   mkStore (<[fresh (dom (systems σ)) := standard s]> (systems σ))
     (states σ)).
Proof.
  intros Hl Hlen. unfold _get_standard_system_hash, _get_standard_system.
  set (copy := fresh (dom (systems σ))).
  set (σ0 := mkStore (<[copy := s]> (systems σ)) (states σ)).
  assert (Hcopy : systems σ0 !! copy = Some s) by apply lookup_insert_eq.
  assert (E0 : deepcopy l σ = (Return copy, σ0)).
  { unfold deepcopy.
    rewrite (bind_Return _ _ _ _ _ (read_system_Some _ _ _ Hl)). done. }
  assert (E : ∃ s', standard s = s' ∧
    (system <- deepcopy l ;;
     barostat_id <- _find_barostat_index system ;;
     match barostat_id with
     | Some i => removeForce system i
     | None => ret tt
     end ;;; ret system) σ =
    (Return copy, mkStore (<[copy := s']> (systems σ)) (states σ))).
  { rewrite (bind_Return _ _ _ _ _ E0).
    destruct (at_most_one _ Hlen) as [Hb|(l1 & f & l2 & Hf & Hb & H1 & H2)].
    - exists s. split; [apply standard_unbarostated, Hb|].
      rewrite (bind_Return _ _ _ _ _
                 (find_barostat_index_none _ _ _ Hcopy Hb)).
      reflexivity.
    - exists (with_forces s (l1 ++ l2)).
      split; [apply (standard_own_split _ _ _ _ Hf Hb H1 H2)|].
      rewrite (bind_Return _ _ _ _ _
                 (find_barostat_index_one _ _ _ _ _ _ Hcopy Hf Hb H1 H2)).
      assert (Hi : forces s !! length l1 = Some f)
        by (rewrite Hf; apply lookup_middle).
      rewrite (bind_Return _ _ _ _ _ (removeForce_Some _ _ _ _ _ Hcopy Hi)).
      unfold σ0. cbn [systems states ret].
      rewrite insert_insert_eq, Hf, delete_middle_force. reflexivity. }
  destruct E as (s' & <- & E).
  rewrite (bind_Return _ _ _ _ _ E).
  rewrite (bind_Return _ _ _ _ _
             (read_system_Some
                (mkStore (<[copy := standard s]> (systems σ)) (states σ))
                copy (standard s) (lookup_insert_eq _ _ _))).
  reflexivity.
Qed.

Lemma standard_system_hash_cached σ self st h :
  states σ !! self = Some st →
  _cached_standard_system_hash st = Some h →
  _standard_system_hash omm self σ = (Return h, σ).
Proof.
  intros Hst Hh. unfold _standard_system_hash.
  rewrite (bind_Return _ _ _ _ _ (read_state_Some _ _ _ Hst)), Hh.
  reflexivity.
Qed.

Lemma standard_system_hash_computed σ self st s :
  states σ !! self = Some st → systems σ !! _system st = Some s →
  (length (barostats (forces s)) ≤ 1)%nat →
  _cached_standard_system_hash st = None →
  _standard_system_hash omm self σ =
  (Return (system_hash omm s),
   mkStore (<[fresh (dom (systems σ)) := standard s]> (systems σ))
     (<[self := mkState (_system st) (_temperature st)
                  (Some (system_hash omm s))]> (states σ))).
Proof.
  intros Hst Hs Hlen Hh. unfold _standard_system_hash.
  rewrite (bind_Return _ _ _ _ _ (read_state_Some _ _ _ Hst)), Hh.
  rewrite (bind_Return _ _ _ _ _ (get_standard_system_hash_run _ _ _ Hs Hlen)).
  reflexivity.
Qed.

Lemma system_hash_standard s s' :
  standard s' = standard s → system_hash omm s' = system_hash omm s.
Proof. unfold system_hash. intros ->. reflexivity. Qed.

(** C10.  Assigning the temperature or the pressure of a valid state,
    whatever the outcome, leaves the cached hash where it was and the
    hash of the standard system of the owned system what it was: a
    cached hash that was the hash of the owned system still is. *)
Theorem setters_keep_standard_hash σ self st s r σ' :
  invariant σ self →
  states σ !! self = Some st → systems σ !! _system st = Some s →
  (∃ v, set_temperature omm self v σ = (r, σ')) ∨
  (∃ P, set_pressure omm self P σ = (r, σ')) →
  ∃ st' s',
    states σ' !! self = Some st' ∧ systems σ' !! _system st' = Some s' ∧
    _cached_standard_system_hash st' = _cached_standard_system_hash st ∧
    (_get_standard_system_hash omm (_system st) σ).1
      = Return (system_hash omm s) ∧
    (_get_standard_system_hash omm (_system st') σ').1
      = Return (system_hash omm s) ∧
    (coherent omm σ self → coherent omm σ' self).
Proof.
  intros Hinv Hst Hs Hop.
  pose proof (invariant_consistent _ _ _ _ Hinv Hst Hs) as Hc.
  pose proof (consistent_at_most_one _ _ Hc) as Hlen.
  assert (Hgoal : ∀ st' s',
    states σ' !! self = Some st' → systems σ' !! _system st' = Some s' →
    _system st' = _system st →
    _cached_standard_system_hash st' = _cached_standard_system_hash st →
    standard s' = standard s →
    (length (barostats (forces s')) ≤ 1)%nat →
    ∃ st' s',
      states σ' !! self = Some st' ∧ systems σ' !! _system st' = Some s' ∧
      _cached_standard_system_hash st' = _cached_standard_system_hash st ∧
      (_get_standard_system_hash omm (_system st) σ).1
        = Return (system_hash omm s) ∧
      (_get_standard_system_hash omm (_system st') σ').1
        = Return (system_hash omm s) ∧
      (coherent omm σ self → coherent omm σ' self)).
  { intros st' s' Hst' Hs' Hsys Hcache Hstd Hlen'. exists st', s'.
    split_and!; auto.
    - rewrite (get_standard_system_hash_run _ _ _ Hs Hlen). reflexivity.
    - rewrite (get_standard_system_hash_run _ _ _ Hs' Hlen'). simpl.
      rewrite (system_hash_standard _ _ Hstd). reflexivity.
    - intros Hco st2 s2 h Hst2 Hs2 Hh.
      rewrite Hst' in Hst2. injection Hst2 as <-.
      rewrite Hs' in Hs2. injection Hs2 as <-.
      rewrite (system_hash_standard _ _ Hstd).
      apply (Hco st s h Hst Hs). rewrite <- Hcache. exact Hh. }
  destruct Hop as [[v H]|[P H]].
  - destruct (set_temperature_effect _ _ _ _ _ _ _ Hst Hs H)
      as (s' & -> & Hstd & Hret & Hraise).
    apply (Hgoal (retemp st v) s'); cbn [systems states]; auto.
    + apply lookup_insert_eq.
    + apply lookup_insert_eq.
    + destruct r as [[]|e].
      * eapply consistent_at_most_one. apply Hret. reflexivity.
      * rewrite (Hraise e eq_refl). exact Hlen.
  - destruct (set_pressure_effect _ _ _ _ _ _ _ Hst Hs H)
      as (s' & -> & Hstd & Hret & Hraise).
    apply (Hgoal st s'); cbn [systems states]; auto.
    + apply lookup_insert_eq.
    + destruct r as [[]|e].
      * eapply consistent_at_most_one. apply Hret; [reflexivity|exact Hc].
      * rewrite (Hraise e eq_refl). exact Hlen.
Qed.

(** ** Compatibility of states *)

Lemma allocated_not_fresh σ l s :
  systems σ !! l = Some s → fresh (dom (systems σ)) ≠ l.
Proof. intros Hl <-. rewrite fresh_system in Hl. discriminate. Qed.

(** Taking the hash of a state fills its cache and adds the standard
    system it hashed to the store; every state stays ready. *)
Lemma standard_system_hash_ready σ b stb sb :
  ready omm σ b stb sb →
  ∃ σ1, _standard_system_hash omm b σ = (Return (system_hash omm sb), σ1) ∧
        ∀ x stx sx, ready omm σ x stx sx → ∃ stx', ready omm σ1 x stx' sx.
Proof.
  intros (Hst & Hs & Hlen & Hco).
  destruct (_cached_standard_system_hash stb) as [h|] eqn:Hh.
  - exists σ. rewrite (Hco h eq_refl) in Hh.
    split; [eapply standard_system_hash_cached; eauto|]. eauto.
  - eexists. split; [eapply standard_system_hash_computed; eauto|].
    intros x stx sx (Hstx & Hsx & Hlenx & Hcox).
    destruct (decide (x = b)) as [->|Hne].
    + rewrite Hst in Hstx. injection Hstx as <-.
      rewrite Hs in Hsx. injection Hsx as <-.
      eexists. unfold ready. cbn [systems states _system].
      split_and!; [apply lookup_insert_eq| |exact Hlen|].
      * rewrite lookup_insert_ne; [exact Hs|].
        eapply allocated_not_fresh; eauto.
      * simpl. intros h [= <-]. reflexivity.
    + exists stx. unfold ready. cbn [systems states].
      split_and!; [|  |exact Hlenx|exact Hcox].
      * rewrite lookup_insert_ne; [exact Hstx|]. congruence.
      * rewrite lookup_insert_ne; [exact Hsx|].
        eapply allocated_not_fresh; eauto.
Qed.

Lemma try_Return {A} (m h : M A) σ a σ' :
  m σ = (Return a, σ') → try_except_AttributeError m h σ = (Return a, σ').
Proof. unfold try_except_AttributeError. intros ->. reflexivity. Qed.

Lemma is_state_compatible_run σ a b sta sa stb sb :
  ready omm σ a sta sa → ready omm σ b stb sb →
  (is_state_compatible omm a b σ).1 =
  Return (bool_decide (system_hash omm sa = system_hash omm sb)).
Proof.
  intros Ha Hb. unfold is_state_compatible.
  destruct (standard_system_hash_ready _ _ _ _ Hb) as (σ1 & E1 & Hkeep).
  erewrite bind_Return; [|apply try_Return; exact E1].
  destruct (Hkeep _ _ _ Ha) as (sta' & Ha').
  destruct (standard_system_hash_ready _ _ _ _ Ha') as (σ2 & E2 & _).
  rewrite (bind_Return _ _ _ _ _ E2). reflexivity.
Qed.

Lemma invariant_ready σ x st s :
  invariant σ x → coherent omm σ x →
  states σ !! x = Some st → systems σ !! _system st = Some s →
  ready omm σ x st s.
Proof.
  intros Hinv Hco Hst Hs. unfold ready. split_and!; auto.
  - eapply consistent_at_most_one, invariant_consistent; eauto.
  - intros h Hh. eapply Hco; eauto.
Qed.

(** C6.  [is_state_compatible] is reflexive and symmetric, and it is
    the equality of the hashes of the two owned systems without their
    barostats: two states whose systems are the same but for the
    barostat, whatever their temperatures and pressures, are
    compatible. *)
Theorem state_compatibility σ a b sta sa stb sb :
  invariant σ a → coherent omm σ a →
  states σ !! a = Some sta → systems σ !! _system sta = Some sa →
  invariant σ b → coherent omm σ b →
  states σ !! b = Some stb → systems σ !! _system stb = Some sb →
  (is_state_compatible omm a a σ).1 = Return true ∧
  (is_state_compatible omm a b σ).1 = (is_state_compatible omm b a σ).1 ∧
  (is_state_compatible omm a b σ).1
    = Return (bool_decide (system_hash omm sa = system_hash omm sb)) ∧
  (standard sa = standard sb →
   (is_state_compatible omm a b σ).1 = Return true).
Proof.
  intros Hia Hca Hsta Hsa Hib Hcb Hstb Hsb.
  pose proof (invariant_ready _ _ _ _ Hia Hca Hsta Hsa) as Ha.
  pose proof (invariant_ready _ _ _ _ Hib Hcb Hstb Hsb) as Hb.
  split_and!.
  - rewrite (is_state_compatible_run _ _ _ _ _ _ _ Ha Ha).
    rewrite bool_decide_eq_true_2; reflexivity.
  - rewrite (is_state_compatible_run _ _ _ _ _ _ _ Ha Hb).
    rewrite (is_state_compatible_run _ _ _ _ _ _ _ Hb Ha).
    f_equal. apply bool_decide_ext. split; congruence.
  - apply (is_state_compatible_run _ _ _ _ _ _ _ Ha Hb).
  - intros Hstd. rewrite (is_state_compatible_run _ _ _ _ _ _ _ Ha Hb).
    rewrite bool_decide_eq_true_2; [reflexivity|].
    apply system_hash_standard, Hstd.
Qed.

(** ** Integrators *)

Lemma bind_assoc {A B C} (m : M A) (f : A → M B) (g : B → M C) σ :
  bind (bind m f) g σ = bind m (λ x, bind (f x) g) σ.
Proof. unfold bind. destruct (m σ) as [[a|e] σ']; reflexivity. Qed.

Lemma thermostat_consistent σ self st integrator :
  states σ !! self = Some st →
  try_except_AttributeError
    (t <- integrator_getTemperature integrator ;;
     temperature <- get_temperature self ;;
     ret (bool_decide (t = temperature)))
    (ret true) σ =
  (Return match integrator with
          | SimpleIntegrator _ (Some t) => bool_decide (t = _temperature st)
          | _ => true
          end, σ).
Proof.
  intros Hst. unfold try_except_AttributeError.
  destruct integrator as [name [t|]|integrators current]; try reflexivity.
  unfold integrator_getTemperature. rewrite bind_ret.
  rewrite (bind_Return _ _ _ _ _ (get_temperature_self _ _ _ Hst)).
  reflexivity.
Qed.

Lemma is_integrator_consistent_run σ self st integrator :
  states σ !! self = Some st →
  _is_integrator_consistent self integrator σ =
  (match integrator with
   | CompoundIntegrator integrators current =>
       match integrators !! current with
       | Some _ =>
           Return match heat_bath_temperature integrator with
                  | Some t => bool_decide (t = _temperature st)
                  | None => true
                  end
       | None => Raise OpenMMException
       end
   | SimpleIntegrator _ _ =>
       Return match heat_bath_temperature integrator with
              | Some t => bool_decide (t = _temperature st)
              | None => true
              end
   end, σ).
Proof.
  intros Hst. unfold _is_integrator_consistent.
  destruct integrator as [name t|integrators current].
  - rewrite bind_ret, (thermostat_consistent _ _ _ _ Hst).
    destruct t; reflexivity.
  - unfold getCurrentIntegrator, getIntegrator.
    rewrite bind_assoc, bind_ret. simpl heat_bath_temperature.
    destruct (integrators !! current) as [sub|]; [|reflexivity].
    rewrite bind_ret, (thermostat_consistent _ _ _ _ Hst).
    destruct sub as [name [t|]|]; reflexivity.
Qed.

Lemma get_system_run σ self st s :
  states σ !! self = Some st → systems σ !! _system st = Some s →
  get_system self σ =
  (Return (fresh (dom (systems σ))),
   mkStore (<[fresh (dom (systems σ)) := s]> (systems σ)) (states σ)).
Proof.
  intros Hst Hs. unfold get_system, deepcopy.
  rewrite (bind_Return _ _ _ _ _ (read_state_Some _ _ _ Hst)).
  rewrite (bind_Return _ _ _ _ _ (read_system_Some _ _ _ Hs)). reflexivity.
Qed.

(** C9.  [create_context] raises [INCONSISTENT_INTEGRATOR] exactly when
    the integrator, or the current integrator of a compound one,
    exposes a heat-bath temperature other than the temperature of the
    state; an integrator that exposes none is accepted, and the context
    holds a copy of the owned system. *)
Theorem create_context_integrator σ self st s integrator platform :
  states σ !! self = Some st → systems σ !! _system st = Some s →
  ((∃ message σ',
      create_context self integrator platform σ =
        (Raise (ThermodynamicsError INCONSISTENT_INTEGRATOR message), σ')) ↔
   (∃ t, heat_bath_temperature integrator = Some t ∧ t ≠ _temperature st)) ∧
  (heat_bath_temperature integrator = None →
   current_in_range integrator →
   _is_integrator_consistent self integrator σ = (Return true, σ) ∧
   create_context self integrator platform σ =
     (Return (mkContext (fresh (dom (systems σ))) integrator platform),
      mkStore (<[fresh (dom (systems σ)) := s]> (systems σ)) (states σ))).
Proof.
  intros Hst Hs.
  pose proof (is_integrator_consistent_run σ self st integrator Hst) as E.
  assert (Hok : _is_integrator_consistent self integrator σ
                = (Return true, σ) →
    create_context self integrator platform σ =
      (Return (mkContext (fresh (dom (systems σ))) integrator platform),
       mkStore (<[fresh (dom (systems σ)) := s]> (systems σ)) (states σ))).
  { intros E'. unfold create_context. rewrite (bind_Return _ _ _ _ _ E').
    cbn [negb].
    rewrite (bind_Return _ _ _ _ _ (get_system_run _ _ _ _ Hst Hs)).
    reflexivity. }
  assert (Hbad : _is_integrator_consistent self integrator σ
                 = (Return false, σ) →
    create_context self integrator platform σ
      = (Raise inconsistent_integrator, σ)).
  { intros E'. unfold create_context. rewrite (bind_Return _ _ _ _ _ E').
    reflexivity. }
  split.
  - split.
    + intros (message & σ' & H).
      destruct integrator as [name t|integrators current];
        simpl heat_bath_temperature in *.
      * destruct t as [t|].
        -- destruct (bool_decide_reflect (t = _temperature st)) as [Heq|Hne];
             [|eauto].
           rewrite (Hok E) in H. discriminate.
        -- rewrite (Hok E) in H. discriminate.
      * destruct (integrators !! current) as [sub|].
        -- destruct sub as [name [t|]|];
             try (rewrite (Hok E) in H; discriminate).
           destruct (bool_decide_reflect (t = _temperature st)) as [Heq|Hne];
             [|eauto].
           rewrite (Hok E) in H. discriminate.
        -- unfold create_context in H.
           rewrite (bind_Raise _ _ _ _ _ E) in H. discriminate.
    + intros (t & Ht & Hne). eexists. exists σ. apply Hbad. rewrite E.
      destruct integrator as [name t'|integrators current];
        simpl heat_bath_temperature in *.
      * rewrite Ht, bool_decide_eq_false_2; auto.
      * destruct (integrators !! current) as [sub|]; [|discriminate].
        destruct sub as [name [t'|]|]; try discriminate.
        injection Ht as ->. rewrite bool_decide_eq_false_2; auto.
  - intros Hnone Hrange.
    assert (E' : _is_integrator_consistent self integrator σ
                 = (Return true, σ)).
    { rewrite E. destruct integrator as [name t|integrators current].
      - rewrite Hnone. reflexivity.
      - destruct Hrange as [sub Hsub]. rewrite Hnone, Hsub. reflexivity. }
    split; [exact E'|apply Hok, E'].
Qed.

(** ** Construction over a barostat at another temperature *)

Lemma existsb_nonperiodic_split l1 f g l2 :
  nonperiodic_nonbonded f = nonperiodic_nonbonded g →
  existsb nonperiodic_nonbonded (l1 ++ f :: l2)
  = existsb nonperiodic_nonbonded (l1 ++ g :: l2).
Proof. intros H. rewrite !existsb_app. simpl. rewrite H. reflexivity. Qed.


(** Taking the hash of a state leaves its cache right. *)
Lemma standard_system_hash_coherent σ self st s r σ' :
  ready omm σ self st s →
  _standard_system_hash omm self σ = (r, σ') → coherent omm σ' self.
Proof.
  intros Hr H.
  destruct (standard_system_hash_ready _ _ _ _ Hr) as (σ1 & E & Hkeep).
  rewrite E in H. injection H as _ <-.
  destruct (Hkeep _ _ _ Hr) as (st' & Hst' & Hs' & _ & Hco).
  intros st2 s2 h Hst2 Hs2 Hh.
  rewrite Hst' in Hst2. injection Hst2 as <-.
  rewrite Hs' in Hs2. injection Hs2 as <-. auto.
Qed.

(** A successful assignment to [system] empties the cache. *)
Lemma system_assignment_coherent σ self st value sv σ' :
  states σ !! self = Some st → systems σ !! value = Some sv →
  set_system omm self value σ = (Return tt, σ') → coherent omm σ' self.
Proof.
  intros Hst Hv H. rewrite (set_system_run _ _ _ _ _ Hst Hv) in H.
  destruct (_check_system_consistency omm self value σ) as [[[]|e] σ1];
    simpl in H; [|discriminate].
  injection H as <-. intros st2 s2 h Hst2 _ Hh. cbn [states] in Hst2.
  rewrite lookup_insert_eq in Hst2. injection Hst2 as <-. discriminate Hh.
Qed.

(** A state comes out of its constructor with an empty cache. *)
Lemma construction_coherent σ system s T P self σ' :
  systems σ !! system = Some s →
  __init__ omm system T P σ = (Return self, σ') → coherent omm σ' self.
Proof.
  intros Hs H.
  destruct (init_effect _ _ _ _ _ _ _ Hs H) as (s' & -> & _ & Hr).
  destruct (Hr self eq_refl) as [-> _].
  intros st s0 h Hst _ Hh. cbn [states] in Hst.
  rewrite lookup_insert_eq in Hst. injection Hst as <-. discriminate Hh.
Qed.

(** ** More on barostat discovery *)

Lemma no_barostat_lookup (l : list Force) j g :
  barostats l = [] → l !! j = Some g → is_barostat g = false.
Proof.
  revert j. induction l as [|f l IH]; intros j Hb Hj; [discriminate|].
  unfold barostats in Hb. simpl in Hb.
  destruct (is_barostat f) eqn:Hf; [discriminate|].
  destruct j as [|j]; simpl in Hj.
  - injection Hj as <-. exact Hf.
  - eapply IH; eauto.
Qed.

Lemma lookup_split_barostat (l1 l2 : list Force) f j g :
  barostats l1 = [] → barostats l2 = [] →
  (l1 ++ f :: l2) !! j = Some g → is_barostat g = true → j = length l1.
Proof.
  intros H1 H2 Hj Hg.
  destruct (Nat.lt_trichotomy j (length l1)) as [Hlt|[Heq|Hgt]]; [|exact Heq|].
  - rewrite lookup_app_l in Hj by exact Hlt.
    rewrite (no_barostat_lookup _ _ _ H1 Hj) in Hg. discriminate.
  - rewrite lookup_app_r in Hj by lia.
    destruct (j - length l1)%nat as [|k] eqn:Hk; [lia|]. simpl in Hj.
    rewrite (no_barostat_lookup _ _ _ H2 Hj) in Hg. discriminate.
Qed.

(** X1.  What [_find_barostat_index] returns is right: [None] only for
    a system with no barostat-like force; an index only when the force
    at that index is the one barostat-like force of the system; and it
    raises nothing but [MULTIPLE_BAROSTATS], only for a system with two
    or more.  It writes nothing. *)
Theorem find_barostat_index_sound σ system s r σ' :
  systems σ !! system = Some s →
  _find_barostat_index system σ = (r, σ') →
  σ' = σ ∧
  match r with
  | Return None => barostats (forces s) = []
  | Return (Some i) =>
      ∃ f, forces s !! i = Some f ∧ barostats (forces s) = [f] ∧
           ∀ j g, forces s !! j = Some g → is_barostat g = true → j = i
  | Raise e => e = multiple_barostats ∧ (2 ≤ length (barostats (forces s)))%nat
  end.
Proof.
  intros Hl H.
  destruct (shape (forces s))
    as [Hb|l1 p t n l2 Hf H1 H2|l1 f l2 Hf Hb Hm H1 H2|Hb].
  - rewrite (find_barostat_index_none _ _ _ Hl Hb) in H.
    injection H as <- <-. auto.
  - rewrite (find_barostat_index_one _ _ _ _ _ _ Hl Hf
               (is_barostat_MCB _ _ _) H1 H2) in H.
    injection H as <- <-. split; [reflexivity|].
    exists (MonteCarloBarostat p t n). rewrite Hf. split_and!.
    + apply lookup_middle.
    + apply barostats_split; auto.
    + intros j g. apply lookup_split_barostat; auto.
  - rewrite (find_barostat_index_one _ _ _ _ _ _ Hl Hf Hb H1 H2) in H.
    injection H as <- <-. split; [reflexivity|].
    exists f. rewrite Hf. split_and!.
    + apply lookup_middle.
    + apply barostats_split; auto.
    + intros j g. apply lookup_split_barostat; auto.
  - rewrite (find_barostat_index_many _ _ _ Hl Hb) in H.
    injection H as <- <-. auto.
Qed.

(** ** More on the standard system *)

Lemma barostats_nonbarostats fs : barostats (nonbarostats fs) = [].
Proof.
  unfold barostats, nonbarostats. induction fs as [|f fs IH]; [done|].
  simpl. destruct (is_barostat f) eqn:Hf; simpl; [exact IH|].
  rewrite Hf. exact IH.
Qed.

Lemma standard_idempotent s : standard (standard s) = standard s.
Proof. apply standard_unbarostated. apply barostats_nonbarostats. Qed.

Lemma deepcopy_run σ l s :
  systems σ !! l = Some s →
  deepcopy l σ =
  (Return (fresh (dom (systems σ))),
   mkStore (<[fresh (dom (systems σ)) := s]> (systems σ)) (states σ)).
Proof.
  intros Hl. unfold deepcopy.
  rewrite (bind_Return _ _ _ _ _ (read_system_Some _ _ _ Hl)). reflexivity.
Qed.

Lemma get_standard_system_many σ system s :
  systems σ !! system = Some s →
  (2 ≤ length (barostats (forces s)))%nat →
  _get_standard_system system σ =
  (Raise multiple_barostats,
   mkStore (<[fresh (dom (systems σ)) := s]> (systems σ)) (states σ)).
Proof.
  intros Hl Hlen. unfold _get_standard_system.
  rewrite (bind_Return _ _ _ _ _ (deepcopy_run _ _ _ Hl)).
  erewrite bind_Raise; [reflexivity|].
  apply (find_barostat_index_many _ _ s); [apply lookup_insert_eq|exact Hlen].
Qed.

(** X2.  [_get_standard_system] leaves the system it is given as it
    is and returns a new system: the given one without its barostat-like
    force, the other forces in their order (also when that force is of
    an unsupported class).  It raises [MULTIPLE_BAROSTATS] for a system
    with two or more such forces, and the given system is as it was
    then too. *)
Theorem get_standard_system_copy σ system s :
  systems σ !! system = Some s →
  let copy := fresh (dom (systems σ)) in
  systems σ !! copy = None ∧
  ((length (barostats (forces s)) ≤ 1)%nat →
   _get_standard_system system σ =
     (Return copy,
      mkStore (<[copy := standard s]> (systems σ)) (states σ)) ∧
   barostats (forces (standard s)) = [] ∧
   forces (standard s) = nonbarostats (forces s)) ∧
  ((2 ≤ length (barostats (forces s)))%nat →
   _get_standard_system system σ =
     (Raise multiple_barostats,
      mkStore (<[copy := s]> (systems σ)) (states σ))).
Proof.
  intros Hl copy.
  set (σ0 := mkStore (<[copy := s]> (systems σ)) (states σ)).
  assert (Hcopy : systems σ0 !! copy = Some s) by apply lookup_insert_eq.
  split_and!.
  - apply fresh_system.
  - intros Hlen. split_and!; [|apply barostats_nonbarostats|reflexivity].
    unfold _get_standard_system.
    rewrite (bind_Return _ _ _ _ _ (deepcopy_run _ _ _ Hl)).
    fold copy σ0.
    destruct (at_most_one _ Hlen) as [Hb|(l1 & f & l2 & Hf & Hb & H1 & H2)].
    + rewrite (bind_Return _ _ _ _ _
                 (find_barostat_index_none _ _ _ Hcopy Hb)).
      rewrite (standard_unbarostated _ Hb). reflexivity.
    + rewrite (bind_Return _ _ _ _ _
                 (find_barostat_index_one _ _ _ _ _ _ Hcopy Hf Hb H1 H2)).
      assert (Hi : forces s !! length l1 = Some f)
        by (rewrite Hf; apply lookup_middle).
      rewrite (bind_Return _ _ _ _ _ (removeForce_Some _ _ _ _ _ Hcopy Hi)).
      unfold σ0. cbn [systems states ret].
      rewrite insert_insert_eq, Hf, delete_middle_force.
      rewrite (standard_own_split _ _ _ _ Hf Hb H1 H2). reflexivity.
  - intros Hlen. unfold _get_standard_system.
    rewrite (bind_Return _ _ _ _ _ (deepcopy_run _ _ _ Hl)).
    fold copy σ0.
    rewrite (bind_Raise _ _ _ _ _ (find_barostat_index_many _ _ _ Hcopy Hlen)).
    reflexivity.
Qed.

(** X3.  The hash of a state is computed once: the first read of
    [_standard_system_hash] gives the hash of the owned system without
    its barostat, and a second read gives the same value and writes
    nothing. *)
Theorem standard_system_hash_once σ self st s :
  ready omm σ self st s →
  ∃ σ1,
    _standard_system_hash omm self σ = (Return (system_hash omm s), σ1) ∧
    _standard_system_hash omm self σ1 = (Return (system_hash omm s), σ1).
Proof.
  intros Hr.
  destruct (standard_system_hash_ready _ _ _ _ Hr) as (σ1 & E & Hkeep).
  exists σ1. split; [exact E|].
  destruct Hr as (Hst & Hs & Hlen & Hco).
  destruct (_cached_standard_system_hash st) as [h|] eqn:Hh.
  - rewrite (standard_system_hash_cached _ _ _ _ Hst Hh) in E.
    injection E as Eh <-. rewrite <- Eh.
    apply (standard_system_hash_cached _ _ _ _ Hst Hh).
  - rewrite (standard_system_hash_computed _ _ _ _ Hst Hs Hlen Hh) in E.
    injection E as <-.
    eapply standard_system_hash_cached; cbn [states].
    + apply lookup_insert_eq.
    + reflexivity.
Qed.

(** ** More on the [system] property *)

Lemma get_pressure_consistent σ self st s :
  states σ !! self = Some st → systems σ !! _system st = Some s →
  consistent (_temperature st) (forces s) →
  get_pressure self σ = (Return (barostat_pressure (forces s)), σ).
Proof.
  intros Hst Hs Hc. unfold barostat_pressure.
  destruct (consistent_cases _ _ Hc) as [Hb|(l1 & p & n & l2 & Hf & H1 & H2)].
  - rewrite Hb. apply (get_pressure_unbarostated _ _ _ _ Hst Hs Hb).
  - rewrite Hf at 1.
    rewrite (barostats_split _ _ _ (is_barostat_MCB _ _ _) H1 H2).
    apply (get_pressure_barostated _ _ _ _ Hst Hs _ _ _ _ _ Hf H1 H2).
Qed.

(** X4.  The [system] property hands out a copy: a new system, equal to
    the owned one, at an address the store did not hold; whatever the
    caller then writes into it, the pressure of the state reads as
    before. *)
Theorem system_getter_copy σ self st s :
  invariant σ self →
  states σ !! self = Some st → systems σ !! _system st = Some s →
  let copy := fresh (dom (systems σ)) in
  get_system self σ =
    (Return copy, mkStore (<[copy := s]> (systems σ)) (states σ)) ∧
  systems σ !! copy = None ∧
  ∀ s2, get_pressure self
          (mkStore (<[copy := s2]> (systems σ)) (states σ))
        = (Return (barostat_pressure (forces s)),
           mkStore (<[copy := s2]> (systems σ)) (states σ)).
Proof.
  intros Hinv Hst Hs copy. split_and!.
  - apply (get_system_run _ _ _ _ Hst Hs).
  - apply fresh_system.
  - intros s2. apply (get_pressure_consistent _ self st s); cbn [systems states].
    + exact Hst.
    + rewrite lookup_insert_ne; [exact Hs|].
      eapply allocated_not_fresh; eauto.
    + eapply invariant_consistent; eauto.
Qed.

Lemma set_system_success σ self st value sv σ' :
  states σ !! self = Some st → systems σ !! value = Some sv →
  set_system omm self value σ = (Return tt, σ') →
  σ' = mkStore (<[fresh (dom (systems σ)) := sv]> (systems σ))
         (<[self := mkState (fresh (dom (systems σ))) (_temperature st) None]>
            (states σ)).
Proof.
  intros Hst Hv H. rewrite (set_system_run _ _ _ _ _ Hst Hv) in H.
  destruct (_check_system_consistency omm self value σ) as [[[]|e] σ1];
    simpl in H; [|discriminate].
  injection H as <-. reflexivity.
Qed.

(** X5.  A successful assignment to [system] leaves the state with a
    copy of the value, at an address the store did not hold, with its
    temperature kept and its cache emptied; every other object of the
    store, the value among them, is as it was. *)
Theorem system_assignment_copy σ self st value sv σ' :
  states σ !! self = Some st → systems σ !! value = Some sv →
  set_system omm self value σ = (Return tt, σ') →
  let copy := fresh (dom (systems σ)) in
  systems σ !! copy = None ∧
  σ' = mkStore (<[copy := sv]> (systems σ))
         (<[self := mkState copy (_temperature st) None]> (states σ)) ∧
  systems σ' !! value = Some sv.
Proof.
  intros Hst Hv H copy.
  rewrite (set_system_success _ _ _ _ _ _ Hst Hv H). fold copy. split_and!.
  - apply fresh_system.
  - reflexivity.
  - cbn [systems]. rewrite lookup_insert_ne; [exact Hv|].
    eapply allocated_not_fresh; eauto.
Qed.

(** X6.  The cache is emptied when the system is assigned: after a
    successful assignment, [_standard_system_hash] is the hash of the
    new system, whatever was cached before. *)
Theorem system_assignment_recomputes_hash σ self st value sv σ' :
  states σ !! self = Some st → systems σ !! value = Some sv →
  set_system omm self value σ = (Return tt, σ') →
  (_standard_system_hash omm self σ').1 = Return (system_hash omm sv).
Proof.
  intros Hst Hv H.
  pose proof (system_assignment_valid _ _ _ _ _ _ Hst Hv H) as Hval.
  rewrite (set_system_success _ _ _ _ _ _ Hst Hv H) in *.
  destruct Hval as (st' & s' & Hst' & Hs' & Hc).
  cbn [systems states] in Hst', Hs'.
  rewrite lookup_insert_eq in Hst'. injection Hst' as <-.
  cbn [_system] in Hs'. rewrite lookup_insert_eq in Hs'. injection Hs' as <-.
  match goal with
  | |- context [<[self := ?st']> (states σ)] =>
      rewrite (standard_system_hash_computed _ self st' sv
                 (lookup_insert_eq _ _ _) (lookup_insert_eq _ _ _)
                 (consistent_at_most_one _ _ Hc) eq_refl)
  end.
  reflexivity.
Qed.

(** X7.  What the [system] setter accepts, on a state that satisfies
    the invariant.  A system with no barostat-like force is accepted,
    whatever the state.  A system with a [MonteCarloBarostat] is
    accepted only if the barostat is at the temperature of the state
    and at the pressure the state has now, so never by a state with no
    barostat: otherwise [INCONSISTENT_BAROSTAT]; and, consistent, it is
    refused with [BAROSTATED_NONPERIODIC] if one of its nonbonded forces
    is non-periodic.  With several barostat-like forces it is refused
    with [MULTIPLE_BAROSTATS]. *)
Theorem system_assignment_outcome σ self st s value sv :
  invariant σ self →
  states σ !! self = Some st → systems σ !! _system st = Some s →
  systems σ !! value = Some sv →
  (barostats (forces sv) = [] →
   (set_system omm self value σ).1 = Return tt) ∧
  (∀ p t n, barostats (forces sv) = [MonteCarloBarostat p t n] →
     (set_system omm self value σ).1 =
     if bool_decide (t = _temperature st)
     then if bool_decide (Some p = barostat_pressure (forces s))
          then if existsb nonperiodic_nonbonded (forces sv)
               then Raise barostated_nonperiodic else Return tt
          else Raise inconsistent_barostat
     else Raise inconsistent_barostat) ∧
  ((2 ≤ length (barostats (forces sv)))%nat →
   set_system omm self value σ = (Raise multiple_barostats, σ)).
Proof.
  intros Hinv Hst Hs Hv.
  pose proof (invariant_consistent _ _ _ _ Hinv Hst Hs) as Hc.
  pose proof (get_pressure_consistent _ _ _ _ Hst Hs Hc) as Hp.
  rewrite (set_system_run _ _ _ _ _ Hst Hv). split_and!.
  - intros Hb. rewrite (check_unbarostated σ self _ _ Hv Hb). reflexivity.
  - intros p t n Hb.
    destruct (barostats_singleton _ _ Hb) as (l1 & l2 & Hf & _ & H1 & H2).
    rewrite (check_barostated _ _ _ _ _ Hst Hv _ _ _ _ _ _ Hf H1 H2 Hp).
    cbn [fst].
    destruct (bool_decide (t = _temperature st)); [|reflexivity].
    destruct (bool_decide (Some p = barostat_pressure (forces s)));
      [|reflexivity].
    destruct (existsb nonperiodic_nonbonded (forces sv)); reflexivity.
  - intros Hb. rewrite (check_multiple σ self _ _ Hv Hb). reflexivity.
Qed.

(** ** More on the setters *)

Lemma at_temperature_id T (l : list Force) :
  barostats l = [] → at_temperature T <$> l = l.
Proof.
  induction l as [|f l IH]; [done|]. intros Hb.
  unfold barostats in Hb. simpl in Hb.
  destruct (is_barostat f) eqn:Hf; [discriminate|].
  rewrite fmap_cons, (IH Hb). destruct f; try reflexivity. discriminate Hf.
Qed.

Lemma retargeted_unbarostated T s :
  barostats (forces s) = [] → retargeted T s = s.
Proof.
  intros Hb. unfold retargeted. rewrite (at_temperature_id _ _ Hb).
  apply with_forces_id.
Qed.

Lemma retargeted_split T s l1 p t n l2 :
  forces s = l1 ++ MonteCarloBarostat p t n :: l2 →
  barostats l1 = [] → barostats l2 = [] →
  retargeted T s = with_forces s (l1 ++ MonteCarloBarostat p T n :: l2).
Proof.
  intros Hf H1 H2. unfold retargeted. rewrite Hf, fmap_app, fmap_cons.
  rewrite (at_temperature_id _ _ H1), (at_temperature_id _ _ H2).
  reflexivity.
Qed.

Lemma set_temperature_supported σ self st s v :
  states σ !! self = Some st → systems σ !! _system st = Some s →
  supported (forces s) →
  set_temperature omm self v σ =
  (Return tt,
   mkStore (<[_system st := retargeted v s]> (systems σ))
     (<[self := retemp st v]> (states σ))).
Proof.
  intros Hst Hs [Hb|(p & t & n & Hb)].
  - rewrite (set_temperature_unbarostated _ _ _ _ Hst Hs _ Hb).
    rewrite (retargeted_unbarostated _ _ Hb).
    f_equal. apply store_insert_id_states, Hs.
  - destruct (barostats_singleton _ _ Hb) as (l1 & l2 & Hf & _ & H1 & H2).
    rewrite (set_temperature_barostated _ _ _ _ Hst Hs _ _ _ _ _ _ Hf H1 H2).
    rewrite (retargeted_split _ _ _ _ _ _ _ Hf H1 H2). reflexivity.
Qed.

Lemma consistent_supported T fs : consistent T fs → supported fs.
Proof. intros [Hb|(p & n & Hb)]; [left|right]; eauto. Qed.

Lemma barostat_pressure_retargeted T s :
  supported (forces s) →
  barostat_pressure (forces (retargeted T s)) = barostat_pressure (forces s).
Proof.
  intros [Hb|(p & t & n & Hb)].
  - rewrite (retargeted_unbarostated _ _ Hb). reflexivity.
  - destruct (barostats_singleton _ _ Hb) as (l1 & l2 & Hf & _ & H1 & H2).
    rewrite (retargeted_split _ _ _ _ _ _ _ Hf H1 H2). unfold barostat_pressure.
    rewrite Hb. cbn [forces with_forces].
    rewrite (barostats_split _ _ _ (is_barostat_MCB _ _ _) H1 H2). reflexivity.
Qed.

Lemma consistent_retargeted T s :
  supported (forces s) → consistent T (forces (retargeted T s)).
Proof.
  intros [Hb|(p & t & n & Hb)].
  - rewrite (retargeted_unbarostated _ _ Hb). left. exact Hb.
  - destruct (barostats_singleton _ _ Hb) as (l1 & l2 & Hf & _ & H1 & H2).
    rewrite (retargeted_split _ _ _ _ _ _ _ Hf H1 H2).
    apply consistent_split; auto.
Qed.

(** X8.  On a state that satisfies the invariant, assigning a
    temperature that the barostat takes and holds as given succeeds;
    the temperature then reads as assigned, the barostat of the owned
    system, if there is one, is at that temperature, and the pressure
    reads as before. *)
Theorem temperature_assignment_roundtrip σ self st s v :
  invariant σ self →
  states σ !! self = Some st → systems σ !! _system st = Some s →
  held_exactly v →
  ∃ σ',
    set_temperature omm self v σ = (Return tt, σ') ∧
    get_temperature self σ' = (Return v, σ') ∧
    systems σ' !! _system st = Some (retargeted v s) ∧
    (get_pressure self σ').1 = (get_pressure self σ).1.
Proof.
  intros Hinv Hst Hs _.
  pose proof (invariant_consistent _ _ _ _ Hinv Hst Hs) as Hc.
  pose proof (consistent_supported _ _ Hc) as Hsup.
  eexists. split; [apply (set_temperature_supported _ _ _ _ _ Hst Hs Hsup)|].
  split_and!.
  - apply (get_temperature_self _ self (retemp st v)). cbn [states].
    apply lookup_insert_eq.
  - cbn [systems]. apply lookup_insert_eq.
  - rewrite (get_pressure_consistent _ _ _ _ Hst Hs Hc).
    erewrite (get_pressure_consistent _ self (retemp st v) (retargeted v s)).
    + cbn [fst]. rewrite (barostat_pressure_retargeted _ _ Hsup). reflexivity.
    + cbn [states]. apply lookup_insert_eq.
    + cbn [systems]. apply lookup_insert_eq.
    + apply consistent_retargeted, Hsup.
Qed.

Lemma check_internal_run σ self st :
  states σ !! self = Some st →
  _check_internal_consistency omm self σ =
  _check_system_consistency omm self (_system st) σ.
Proof.
  intros Hst. unfold _check_internal_consistency.
  rewrite (bind_Return _ _ _ _ _ (read_state_Some _ _ _ Hst)). reflexivity.
Qed.

Lemma check_internal_consistent σ self st s :
  states σ !! self = Some st → systems σ !! _system st = Some s →
  consistent (_temperature st) (forces s) →
  _check_internal_consistency omm self σ =
  (match barostats (forces s) with
   | [] => Return tt
   | _ => if existsb nonperiodic_nonbonded (forces s)
          then Raise barostated_nonperiodic else Return tt
   end, σ).
Proof.
  intros Hst Hs Hc.
  pose proof (get_pressure_consistent _ _ _ _ Hst Hs Hc) as Hp.
  rewrite (check_internal_run _ _ _ Hst).
  destruct (consistent_cases _ _ Hc) as [Hb|(l1 & p & n & l2 & Hf & H1 & H2)].
  - rewrite Hb. apply (check_unbarostated σ self _ _ Hs Hb).
  - rewrite (check_barostated _ _ _ _ _ Hst Hs _ _ _ _ _ _ Hf H1 H2 Hp).
    assert (Hb : barostats (forces s)
                 = [MonteCarloBarostat p (_temperature st) n])
      by (rewrite Hf; apply barostats_split; auto).
    rewrite bool_decide_eq_true_2 by reflexivity.
    unfold barostat_pressure. rewrite Hb.
    rewrite bool_decide_eq_true_2 by reflexivity. reflexivity.
Qed.

(** X9.  A state that satisfies the invariant passes its own
    consistency check unless its system holds a barostat and a
    non-periodic nonbonded force; the check then raises
    [BAROSTATED_NONPERIODIC], and nothing else. *)
Theorem internal_consistency σ self st s :
  invariant σ self →
  states σ !! self = Some st → systems σ !! _system st = Some s →
  _check_internal_consistency omm self σ =
  (match barostats (forces s) with
   | [] => Return tt
   | _ => if existsb nonperiodic_nonbonded (forces s)
          then Raise barostated_nonperiodic else Return tt
   end, σ).
Proof.
  intros Hinv Hst Hs.
  apply (check_internal_consistent _ _ _ _ Hst Hs).
  eapply invariant_consistent; eauto.
Qed.

(** X10.  The [pressure] setter asks OpenMM whether the system is
    periodic and does not run the consistency check: on a system that
    OpenMM takes for periodic and that has a non-periodic nonbonded
    force, assigning a pressure succeeds, and leaves a state that
    reports a pressure and fails its own check with
    [BAROSTATED_NONPERIODIC].  The state is one that satisfies the
    invariant, at a temperature that a barostat holds as given. *)
Theorem pressure_assignment_unchecked σ self st s P :
  invariant σ self →
  states σ !! self = Some st → systems σ !! _system st = Some s →
  held_exactly (_temperature st) → held_exactly P →
  uses_pbc omm s = true →
  existsb nonperiodic_nonbonded (forces s) = true →
  ∃ σ',
    set_pressure omm self (Some P) σ = (Return tt, σ') ∧
    (∃ p, get_pressure self σ' = (Return (Some p), σ')) ∧
    _check_internal_consistency omm self σ'
      = (Raise barostated_nonperiodic, σ').
Proof.
  intros Hinv Hst Hs _ _ Hpbc Hnp.
  pose proof (invariant_consistent _ _ _ _ Hinv Hst Hs) as Hc.
  destruct (set_then_get_pressure _ _ _ _ Hst Hs Hc P Hpbc) as (σ' & E & Hg).
  exists σ'. split_and!; eauto.
  pose proof (valid_invariant _ _
                (pressure_assignment_valid _ _ _ _ (invariant_valid _ _ Hinv) E))
    as Hinv'.
  destruct (set_pressure_effect _ _ _ _ _ _ _ Hst Hs E)
    as (s' & -> & _ & _ & _).
  assert (Hst' : states (mkStore (<[_system st := s']> (systems σ)) (states σ))
                   !! self = Some st) by exact Hst.
  assert (Hs' : systems (mkStore (<[_system st := s']> (systems σ)) (states σ))
                  !! _system st = Some s') by apply lookup_insert_eq.
  rewrite (check_internal_consistent _ _ _ _ Hst' Hs'
             (invariant_consistent _ _ _ _ Hinv' Hst' Hs')).
  pose proof (invariant_consistent _ _ _ _ Hinv' Hst' Hs') as Hc'.
  rewrite (get_pressure_consistent _ _ _ _ Hst' Hs' Hc') in Hg.
  injection Hg as Hg. unfold barostat_pressure in Hg.
  destruct (barostats (forces s')) as [|b rest] eqn:Hb'; [discriminate|].
  enough (existsb nonperiodic_nonbonded (forces s') = true) as ->
    by reflexivity.
  (* the setter changes the barostat only *)
  clear Hg Hc' Hinv'.
  destruct (consistent_cases _ _ Hc) as [Hb|(l1 & p & n & l2 & Hf & H1 & H2)].
  - rewrite (set_pressure_unbarostated _ _ _ _ Hst Hs _ Hpbc Hb) in E.
    injection E as E. apply (f_equal (λ m, m !! _system st)) in E.
    rewrite !lookup_insert_eq in E. injection E as <-.
    cbn [forces with_forces]. rewrite existsb_app, Hnp. reflexivity.
  - rewrite (set_pressure_barostated _ _ _ _ Hst Hs _ _ _ _ _ _ Hpbc Hf H1 H2)
      in E.
    injection E as E. apply (f_equal (λ m, m !! _system st)) in E.
    rewrite !lookup_insert_eq in E. injection E as <-.
    cbn [forces with_forces].
    rewrite (existsb_nonperiodic_split l1
               (MonteCarloBarostat P (_temperature st) n)
               (MonteCarloBarostat p (_temperature st) n) l2 eq_refl), <- Hf.
    exact Hnp.
Qed.

(** ** More on the constructor *)

Lemma existsb_nonperiodic_at_temperature T (l : list Force) :
  existsb nonperiodic_nonbonded (at_temperature T <$> l)
  = existsb nonperiodic_nonbonded l.
Proof.
  induction l as [|f l IH]; [done|]. rewrite fmap_cons. simpl.
  rewrite IH. destruct f; reflexivity.
Qed.

Lemma barostats_retargeted_nil T s :
  supported (forces s) →
  barostats (forces (retargeted T s)) = [] ↔ barostats (forces s) = [].
Proof.
  intros [Hb|(p & t & n & Hb)].
  - rewrite (retargeted_unbarostated _ _ Hb). done.
  - destruct (barostats_singleton _ _ Hb) as (l1 & l2 & Hf & _ & H1 & H2).
    rewrite (retargeted_split _ _ _ _ _ _ _ Hf H1 H2). cbn [forces with_forces].
    rewrite (barostats_split _ _ _ (is_barostat_MCB _ _ _) H1 H2), Hb.
    split; discriminate.
Qed.

Lemma standard_retargeted T s :
  supported (forces s) → standard (retargeted T s) = standard s.
Proof.
  intros [Hb|(p & t & n & Hb)].
  - rewrite (retargeted_unbarostated _ _ Hb). reflexivity.
  - destruct (barostats_singleton _ _ Hb) as (l1 & l2 & Hf & _ & H1 & H2).
    rewrite (retargeted_split _ _ _ _ _ _ _ Hf H1 H2).
    rewrite (standard_split s _ l1 _ l2 eq_refl (is_barostat_MCB _ _ _) H1 H2).
    symmetry.
    apply (standard_own_split s _ _ _ Hf (is_barostat_MCB _ _ _) H1 H2).
Qed.

(** A successful assignment of a pressure leaves one barostat, at that
    pressure, and the other forces as they were. *)
Lemma set_pressure_Some_effect σ self st s v σ' :
  states σ !! self = Some st → systems σ !! _system st = Some s →
  consistent (_temperature st) (forces s) →
  set_pressure omm self (Some v) σ = (Return tt, σ') →
  uses_pbc omm s = true ∧
  ∃ s', σ' = mkStore (<[_system st := s']> (systems σ)) (states σ) ∧
        (∃ n, barostats (forces s')
              = [MonteCarloBarostat v (_temperature st) n]) ∧
        existsb nonperiodic_nonbonded (forces s')
        = existsb nonperiodic_nonbonded (forces s) ∧
        standard s' = standard s.
Proof.
  intros Hst Hs Hc E.
  destruct (uses_pbc omm s) eqn:Hpbc.
  2:{ rewrite (set_pressure_nonperiodic _ _ _ _ Hst Hs _ Hpbc) in E.
      discriminate. }
  split; [reflexivity|].
  destruct (consistent_cases _ _ Hc) as [Hb|(l1 & p & n & l2 & Hf & H1 & H2)].
  - rewrite (set_pressure_unbarostated _ _ _ _ Hst Hs _ Hpbc Hb) in E.
    injection E as <-. eexists. split_and!; [reflexivity| | |].
    + eexists. cbn [forces with_forces].
      apply barostats_with_appended; [exact Hb|apply is_barostat_MCB].
    + cbn [forces with_forces]. rewrite existsb_app. simpl.
      rewrite !orb_false_r. reflexivity.
    + apply standard_append; [apply is_barostat_MCB|exact Hb].
  - rewrite (set_pressure_barostated _ _ _ _ Hst Hs _ _ _ _ _ _ Hpbc Hf H1 H2)
      in E.
    injection E as <-. eexists. split_and!; [reflexivity| | |].
    + eexists. cbn [forces with_forces].
      apply (barostats_split _ _ _ (is_barostat_MCB _ _ _) H1 H2).
    + cbn [forces with_forces].
      rewrite (existsb_nonperiodic_split l1
                 (MonteCarloBarostat v (_temperature st) n)
                 (MonteCarloBarostat p (_temperature st) n) l2 eq_refl), <- Hf.
      reflexivity.
    + rewrite (standard_split s _ l1 _ l2 eq_refl (is_barostat_MCB _ _ _) H1 H2).
      symmetry.
      apply (standard_own_split s _ _ _ Hf (is_barostat_MCB _ _ _) H1 H2).
Qed.

Lemma set_temperature_unsupported σ self st s v l1 f l2 :
  states σ !! self = Some st → systems σ !! _system st = Some s →
  forces s = l1 ++ f :: l2 → is_barostat f = true →
  barostats l1 = [] → barostats l2 = [] →
  class_name f ≠ "MonteCarloBarostat"%string →
  (set_temperature omm self v σ).1
  = Raise (unsupported_barostat (class_name f)).
Proof.
  intros Hst Hs Hf Hb H1 H2 Hne.
  rewrite (set_temperature_start _ _ _ Hst v).
  pose proof (find_barostat_one
                (mkStore (systems σ) (<[self := retemp st v]> (states σ)))
                _ s _ _ _ Hs Hf Hb H1 H2) as E.
  rewrite bool_decide_eq_false_2 in E
    by (rewrite supported_class_name; exact Hne).
  rewrite (bind_Raise _ _ _ _ _ E). reflexivity.
Qed.

Section Constructor.

Variables (σ : Store) (system : loc) (s : System) (T : Quantity).
Hypothesis Hs : systems σ !! system = Some s.

Let copy := fresh (dom (systems σ)).
Let self := fresh (dom (states σ)).
Let st0 := mkState copy T None.
Let σw (s' : System) : Store :=
  mkStore (<[copy := s']> (systems σ)) (<[self := st0]> (states σ)).

Lemma constructed_state s' : states (σw s') !! self = Some st0.
Proof. apply lookup_insert_eq. Qed.

Lemma constructed_system s' : systems (σw s') !! _system st0 = Some s'.
Proof. apply lookup_insert_eq. Qed.

Lemma constructed_invariant s' :
  consistent T (forces s') → invariant (σw s') self.
Proof.
  intros Hc. apply valid_invariant. exists st0, s'.
  split_and!; [apply constructed_state|apply constructed_system|exact Hc].
Qed.

Lemma init_temperature_set P :
  supported (forces s) →
  __init__ omm system T P σ =
  (match P with
   | Some p => set_pressure omm self (Some p)
   | None => ret tt
   end ;;;
   _check_internal_consistency omm self ;;;
   ret self) (σw (retargeted T s)).
Proof.
  intros Hsup. rewrite (init_run _ _ _ _ _ Hs). fold copy self st0.
  erewrite bind_Return; [reflexivity|].
  rewrite (set_temperature_supported _ self st0 s T
             (lookup_insert_eq _ _ _) (lookup_insert_eq _ _ _) Hsup).
  unfold σw. cbn [systems states _system]. change (retemp st0 T) with st0.
  rewrite !insert_insert_eq. reflexivity.
Qed.

Lemma init_checked s' :
  consistent T (forces s') →
  (_check_internal_consistency omm self ;;; ret self) (σw s') =
  (match barostats (forces s') with
   | [] => Return self
   | _ => if existsb nonperiodic_nonbonded (forces s')
          then Raise barostated_nonperiodic else Return self
   end, σw s').
Proof.
  intros Hc. unfold bind.
  rewrite (check_internal_consistent _ _ _ _
             (constructed_state _) (constructed_system _) Hc).
  destruct (barostats (forces s')); [reflexivity|].
  destruct (existsb nonperiodic_nonbonded (forces s')); reflexivity.
Qed.

(** The constructor, on a system with at most one barostat-like force,
    a [MonteCarloBarostat]. *)
Lemma init_supported P :
  supported (forces s) →
  ∃ σ',
    __init__ omm system T P σ =
    (match P with
     | None =>
         match barostats (forces s) with
         | [] => Return self
         | _ => if existsb nonperiodic_nonbonded (forces s)
                then Raise barostated_nonperiodic else Return self
         end
     | Some v =>
         if uses_pbc omm (retargeted T s)
         then if existsb nonperiodic_nonbonded (forces s)
              then Raise barostated_nonperiodic else Return self
         else Raise barostated_nonperiodic
     end, σ') ∧
    ∃ s', σ' = σw s' ∧ standard s' = standard s ∧
          match P with
          | None => s' = retargeted T s
          | Some v =>
              uses_pbc omm (retargeted T s) = true →
              ∃ n, barostats (forces s') = [MonteCarloBarostat v T n]
          end.
Proof.
  intros Hsup. rewrite (init_temperature_set P Hsup).
  pose proof (consistent_retargeted T s Hsup) as Hc1.
  destruct P as [v|].
  - destruct (uses_pbc omm (retargeted T s)) eqn:Hpbc.
    + destruct (set_then_get_pressure _ _ _ _ (constructed_state _)
                  (constructed_system _) Hc1 v Hpbc) as (σ2 & E & _).
      destruct (set_pressure_Some_effect _ _ _ _ _ _ (constructed_state _)
                  (constructed_system _) Hc1 E)
        as (_ & s2 & Hσ2 & (n & Hb2) & Hnp2 & Hstd2).
      assert (Hσ2' : σ2 = σw s2).
      { rewrite Hσ2. unfold σw. cbn [systems states _system].
        rewrite insert_insert_eq. reflexivity. }
      rewrite (bind_Return _ _ _ _ _ E), Hσ2'.
      assert (Hc2 : consistent T (forces s2)) by (right; eauto).
      rewrite (init_checked _ Hc2), Hb2, Hnp2.
      unfold retargeted at 1. cbn [forces with_forces].
      rewrite existsb_nonperiodic_at_temperature.
      eexists. split; [reflexivity|]. exists s2. split_and!; auto.
      * rewrite Hstd2. apply standard_retargeted, Hsup.
      * intros _. eauto.
    + rewrite (bind_Raise _ _ _ _ _
                 (set_pressure_nonperiodic _ _ _ _ (constructed_state _)
                    (constructed_system _) v Hpbc)).
      eexists. split; [reflexivity|]. eexists. split_and!; [reflexivity| |].
      * apply standard_retargeted, Hsup.
      * discriminate.
  - rewrite bind_ret, (init_checked _ Hc1).
    unfold retargeted at 2. cbn [forces with_forces].
    rewrite existsb_nonperiodic_at_temperature.
    eexists. split.
    + destruct (barostats (forces (retargeted T s))) eqn:Hb1.
      * apply (barostats_retargeted_nil T s Hsup) in Hb1. rewrite Hb1.
        reflexivity.
      * destruct (barostats (forces s)) eqn:Hb; [|reflexivity].
        apply (barostats_retargeted_nil T s Hsup) in Hb. congruence.
    + eexists. split_and!; [reflexivity| |reflexivity].
      apply standard_retargeted, Hsup.
Qed.

Lemma init_unsupported P :
  ¬ supported (forces s) →
  ∃ e σ', __init__ omm system T P σ = (Raise e, σ') ∧
          (e = multiple_barostats ∨ unsupported_or_missing e) ∧
          ((2 ≤ length (barostats (forces s)))%nat → e = multiple_barostats) ∧
          (∀ f, barostats (forces s) = [f] →
                class_name f ≠ "MonteCarloBarostat"%string →
                e = unsupported_barostat (class_name f)).
Proof.
  intros Hnot. rewrite (init_run _ _ _ _ _ Hs). fold copy self st0.
  set (σ0 := mkStore (<[copy := s]> (systems σ)) (<[self := st0]> (states σ))).
  assert (Hst0 : states σ0 !! self = Some st0) by apply lookup_insert_eq.
  assert (Hs0 : systems σ0 !! _system st0 = Some s) by apply lookup_insert_eq.
  destruct (shape (forces s))
    as [Hb|l1 p t n l2 Hf H1 H2|l1 f l2 Hf Hb Hm H1 H2|Hb].
  - destruct Hnot. left. exact Hb.
  - destruct Hnot. right. exists p, t, n. rewrite Hf.
    apply barostats_split; auto.
  - pose proof (barostats_split _ _ _ Hb H1 H2) as Hbs. rewrite <- Hf in Hbs.
    destruct (set_temperature_foreign _ _ _ _ Hst0 Hs0 T _ _ _ Hf Hb Hm H1 H2)
      as (e & E & He).
    rewrite (bind_Raise _ _ _ _ _ E). exists e. eexists.
    split_and!; [reflexivity|auto| |].
    + rewrite Hbs. simpl. lia.
    + rewrite Hbs. intros g [= <-] Hne.
      pose proof (set_temperature_unsupported _ _ _ _ T _ _ _ Hst0 Hs0 Hf Hb
                    H1 H2 Hne) as E'.
      rewrite E in E'. injection E' as ->. reflexivity.
  - rewrite (bind_Raise _ _ _ _ _
               (set_temperature_multiple _ _ _ _ Hst0 Hs0 T Hb)).
    eexists. eexists. split_and!; [reflexivity|auto|auto|].
    intros f Hf. rewrite Hf in Hb. simpl in Hb. lia.
Qed.

End Constructor.

Lemma supported_or_not fs : supported fs ∨ ¬ supported fs.
Proof.
  destruct (shape fs) as [Hb|l1 p t n l2 Hf H1 H2|l1 f l2 Hf Hb Hm H1 H2|Hb].
  - left. left. exact Hb.
  - left. right. exists p, t, n. rewrite Hf. apply barostats_split; auto.
  - right. rewrite Hf. intros [H|(p & t & n & H)];
      rewrite (barostats_split _ _ _ Hb H1 H2) in H; [discriminate|].
    injection H as ->. discriminate Hm.
  - right. intros [H|(p & t & n & H)]; rewrite H in Hb; simpl in Hb; lia.
Qed.

(** X11.  What the constructor does with a system that has at most one
    barostat-like force, a [MonteCarloBarostat], whatever the
    temperature and the pressure of that barostat, when it is given a
    temperature and a pressure that a barostat takes and holds as
    given.  With no pressure, it succeeds unless the system has both a
    barostat and a non-periodic nonbonded force.  With a pressure, it
    succeeds if OpenMM takes the system for periodic and no nonbonded
    force is non-periodic.  Otherwise it raises
    [BAROSTATED_NONPERIODIC]. *)
Theorem constructor_outcome σ system s T P :
  systems σ !! system = Some s →
  held_exactly T → (∀ v, P = Some v → held_exactly v) →
  supported (forces s) →
  (__init__ omm system T P σ).1 =
  match P with
  | None =>
      match barostats (forces s) with
      | [] => Return (fresh (dom (states σ)))
      | _ => if existsb nonperiodic_nonbonded (forces s)
             then Raise barostated_nonperiodic
             else Return (fresh (dom (states σ)))
      end
  | Some v =>
      if uses_pbc omm (retargeted T s)
      then if existsb nonperiodic_nonbonded (forces s)
           then Raise barostated_nonperiodic
           else Return (fresh (dom (states σ)))
      else Raise barostated_nonperiodic
  end.
Proof.
  intros Hs _ _ Hsup.
  destruct (init_supported _ _ _ T Hs P Hsup) as (σ' & E & _).
  rewrite E. reflexivity.
Qed.

(** X12.  The constructor refuses what barostat discovery refuses: a
    system with two or more barostat-like forces with
    [MULTIPLE_BAROSTATS], and a system whose one barostat-like force is
    of a class other than [MonteCarloBarostat] with
    [UNSUPPORTED_BAROSTAT], the message naming the class; whatever the
    temperature and the pressure asked for. *)
Theorem constructor_refuses σ system s T P :
  systems σ !! system = Some s →
  ((2 ≤ length (barostats (forces s)))%nat →
   (__init__ omm system T P σ).1 = Raise multiple_barostats) ∧
  (∀ f, barostats (forces s) = [f] →
        class_name f ≠ "MonteCarloBarostat"%string →
        (__init__ omm system T P σ).1
        = Raise (unsupported_barostat (class_name f)) ∧
        contains (class_name f)
          ("Found unsupported barostat " +:+ (class_name f +:+ " in system."))
        = true).
Proof.
  intros Hs. split.
  - intros Hlen.
    assert (Hnot : ¬ supported (forces s)).
    { intros [H|(p & t & n & H)]; rewrite H in Hlen; simpl in Hlen; lia. }
    destruct (init_unsupported _ _ _ T Hs P Hnot) as (e & σ' & E & _ & He & _).
    rewrite E, (He Hlen). reflexivity.
  - intros f Hb Hne. split; [|apply contains_app].
    assert (Hnot : ¬ supported (forces s)).
    { intros [H|(p & t & n & H)]; rewrite H in Hb; [discriminate|].
      injection Hb as <-. apply Hne. reflexivity. }
    destruct (init_unsupported _ _ _ T Hs P Hnot) as (e & σ' & E & _ & _ & He).
    rewrite E, (He f Hb Hne). reflexivity.
Qed.

(** X13.  Given a temperature and a pressure that a barostat takes and
    holds as given, the constructor never raises
    [INCONSISTENT_BAROSTAT]: by the time it checks the barostat of its
    copy, it has set the temperature of that barostat, and the pressure
    it compares with is read from the same barostat. *)
Theorem constructor_never_inconsistent σ system s T P message :
  systems σ !! system = Some s →
  held_exactly T → (∀ v, P = Some v → held_exactly v) →
  (__init__ omm system T P σ).1
  ≠ Raise (ThermodynamicsError INCONSISTENT_BAROSTAT message).
Proof.
  intros Hs _ _.
  destruct (supported_or_not (forces s)) as [Hsup|Hnot].
  - destruct (init_supported _ _ _ T Hs P Hsup) as (σ' & E & _).
    rewrite E. cbn [fst].
    destruct P as [v|].
    + destruct (uses_pbc omm (retargeted T s)); [|discriminate].
      destruct (existsb nonperiodic_nonbonded (forces s)); discriminate.
    + destruct (barostats (forces s)); [discriminate|].
      destruct (existsb nonperiodic_nonbonded (forces s)); discriminate.
  - destruct (init_unsupported _ _ _ T Hs P Hnot)
      as (e & σ' & E & [->|[(name & ->)| ->]] & _);
      rewrite E; discriminate.
Qed.

(** X14.  A state that the constructor returns, given a temperature
    and a pressure that a barostat takes and holds as given: its
    temperature reads as given; its cache is empty; its system differs
    from the one given in the barostat only, and is consistent with the
    temperature; its pressure is the pressure of the barostat of that
    system, which is there when a pressure was given and is, given
    none, as in the system given. *)
Theorem constructor_result σ system s T P self σ' :
  systems σ !! system = Some s →
  held_exactly T → (∀ v, P = Some v → held_exactly v) →
  __init__ omm system T P σ = (Return self, σ') →
  get_temperature self σ' = (Return T, σ') ∧
  ∃ st' s',
    states σ' !! self = Some st' ∧ systems σ' !! _system st' = Some s' ∧
    _cached_standard_system_hash st' = None ∧
    standard s' = standard s ∧
    consistent T (forces s') ∧
    get_pressure self σ' = (Return (barostat_pressure (forces s')), σ') ∧
    match P with
    | Some _ => is_Some (barostat_pressure (forces s'))
    | None => barostat_pressure (forces s') = barostat_pressure (forces s)
    end.
Proof.
  intros Hs _ _ H.
  destruct (supported_or_not (forces s)) as [Hsup|Hnot].
  2:{ destruct (init_unsupported _ _ _ T Hs P Hnot) as (e & σ2 & E & _).
      rewrite E in H. discriminate. }
  destruct (init_supported _ _ _ T Hs P Hsup)
    as (σ2 & E & s' & Hσ2 & Hstd & HP).
  rewrite E in H. injection H as Hr <-. subst σ2.
  assert (Hself : self = fresh (dom (states σ))).
  { destruct P as [v|].
    - destruct (uses_pbc omm (retargeted T s)); [|discriminate Hr].
      destruct (existsb nonperiodic_nonbonded (forces s));
        [discriminate Hr|injection Hr as <-; reflexivity].
    - destruct (barostats (forces s)); [injection Hr as <-; reflexivity|].
      destruct (existsb nonperiodic_nonbonded (forces s));
        [discriminate Hr|injection Hr as <-; reflexivity]. }
  subst self.
  set (st0 := mkState (fresh (dom (systems σ))) T None).
  set (σ' := mkStore _ _).
  assert (Hst' : states σ' !! fresh (dom (states σ)) = Some st0)
    by apply lookup_insert_eq.
  assert (Hs' : systems σ' !! _system st0 = Some s') by apply lookup_insert_eq.
  assert (Hc : consistent T (forces s')).
  { destruct P as [v|].
    - destruct (uses_pbc omm (retargeted T s)); [|discriminate].
      destruct (HP eq_refl) as [n Hb]. right. eauto.
    - subst s'. apply consistent_retargeted, Hsup. }
  split; [apply (get_temperature_self _ _ st0 Hst')|].
  exists st0, s'. split_and!; auto.
  - apply (get_pressure_consistent _ _ st0 s' Hst' Hs' Hc).
  - destruct P as [v|].
    + destruct (uses_pbc omm (retargeted T s)); [|discriminate].
      destruct (HP eq_refl) as [n Hb]. unfold barostat_pressure.
      rewrite Hb. eauto.
    + subst s'. apply (barostat_pressure_retargeted _ _ Hsup).
Qed.

(** ** Contexts and compatibility *)

Lemma ready_extend σ x st s s' :
  ready omm σ x st s →
  ready omm (mkStore (<[fresh (dom (systems σ)) := s']> (systems σ))
               (states σ)) x st s.
Proof.
  intros (Hst & Hs & Hlen & Hco). unfold ready. cbn [systems states].
  split_and!; auto.
  rewrite lookup_insert_ne; [exact Hs|]. eapply allocated_not_fresh; eauto.
Qed.

Lemma is_context_compatible_run σ a sta sa context sc :
  ready omm σ a sta sa →
  systems σ !! ctx_system context = Some sc →
  (length (barostats (forces sc)) ≤ 1)%nat →
  (is_context_compatible omm a context σ).1 =
  Return (bool_decide (system_hash omm sa = system_hash omm sc)).
Proof.
  intros Ha Hc Hlen. unfold is_context_compatible.
  rewrite (bind_Return _ _ _ _ _ (get_standard_system_hash_run _ _ _ Hc Hlen)).
  destruct (standard_system_hash_ready _ _ _ _
              (ready_extend _ _ _ _ (standard sc) Ha)) as (σ2 & E2 & _).
  rewrite (bind_Return _ _ _ _ _ E2). reflexivity.
Qed.

Lemma create_context_success σ self st s integrator platform context σ' :
  states σ !! self = Some st → systems σ !! _system st = Some s →
  create_context self integrator platform σ = (Return context, σ') →
  context = mkContext (fresh (dom (systems σ))) integrator platform ∧
  σ' = mkStore (<[fresh (dom (systems σ)) := s]> (systems σ)) (states σ).
Proof.
  intros Hst Hs H.
  assert (E : ∃ r, _is_integrator_consistent self integrator σ = (r, σ)).
  { rewrite (is_integrator_consistent_run σ self st integrator Hst). eauto. }
  destruct E as [[c|e] E]; unfold create_context in H.
  - rewrite (bind_Return _ _ _ _ _ E) in H. destruct c; cbn [negb] in H.
    + rewrite (bind_Return _ _ _ _ _ (get_system_run _ _ _ _ Hst Hs)) in H.
      injection H as <- <-. auto.
    + discriminate H.
  - rewrite (bind_Raise _ _ _ _ _ E) in H. discriminate H.
Qed.

(** X15.  [is_context_compatible] compares the hash of the state with
    the hash of the system of the context without its barostat: it
    answers whether the two hashes are equal when that system has at
    most one barostat-like force, and ends with [MULTIPLE_BAROSTATS]
    when it has more. *)
Theorem context_compatibility σ a sta sa context sc :
  ready omm σ a sta sa →
  systems σ !! ctx_system context = Some sc →
  ((length (barostats (forces sc)) ≤ 1)%nat →
   (is_context_compatible omm a context σ).1 =
   Return (bool_decide (system_hash omm sa = system_hash omm sc))) ∧
  ((2 ≤ length (barostats (forces sc)))%nat →
   (is_context_compatible omm a context σ).1 = Raise multiple_barostats).
Proof.
  intros Ha Hc. split; intros Hlen.
  - apply (is_context_compatible_run _ _ _ _ _ _ Ha Hc Hlen).
  - unfold is_context_compatible, _get_standard_system_hash.
    rewrite bind_assoc.
    rewrite (bind_Raise _ _ _ _ _ (get_standard_system_many _ _ _ Hc Hlen)).
    reflexivity.
Qed.

(** X16.  A context created by a state is compatible with that state,
    and it is compatible with another state exactly when the two
    states are compatible with each other. *)
Theorem created_context_compatible
    σ a b sta sa stb sb integrator platform context σ' :
  ready omm σ a sta sa → ready omm σ b stb sb →
  create_context b integrator platform σ = (Return context, σ') →
  (is_context_compatible omm b context σ').1 = Return true ∧
  (is_context_compatible omm a context σ').1
  = (is_state_compatible omm a b σ).1.
Proof.
  intros Ha Hb H.
  destruct (create_context_success _ _ _ _ _ _ _ _
              (proj1 Hb) (proj1 (proj2 Hb)) H) as [-> ->].
  pose proof (ready_extend _ _ _ _ sb Ha) as Ha'.
  pose proof (ready_extend _ _ _ _ sb Hb) as Hb'.
  set (σ' := mkStore _ _) in *.
  assert (Hc : systems σ' !! fresh (dom (systems σ)) = Some sb)
    by apply lookup_insert_eq.
  pose proof (proj1 (proj2 (proj2 Hb))) as Hlen.
  split.
  - match goal with |- context [is_context_compatible _ _ ?c _] =>
      rewrite (is_context_compatible_run σ' b stb sb c sb Hb' Hc Hlen) end.
    rewrite bool_decide_eq_true_2; reflexivity.
  - match goal with |- context [is_context_compatible _ _ ?c _] =>
      rewrite (is_context_compatible_run σ' a sta sa c sb Ha' Hc Hlen) end.
    symmetry. apply (is_state_compatible_run _ _ _ _ _ _ _ Ha Hb).
Qed.

(** X17.  Compatibility of states is transitive. *)
Theorem state_compatibility_transitive σ a b c sta sa stb sb stc sc :
  ready omm σ a sta sa → ready omm σ b stb sb → ready omm σ c stc sc →
  (is_state_compatible omm a b σ).1 = Return true →
  (is_state_compatible omm b c σ).1 = Return true →
  (is_state_compatible omm a c σ).1 = Return true.
Proof.
  intros Ha Hb Hc.
  rewrite (is_state_compatible_run _ _ _ _ _ _ _ Ha Hb).
  rewrite (is_state_compatible_run _ _ _ _ _ _ _ Hb Hc).
  rewrite (is_state_compatible_run _ _ _ _ _ _ _ Ha Hc).
  intros [= H1] [= H2]. f_equal.
  apply bool_decide_eq_true in H1. apply bool_decide_eq_true in H2.
  apply bool_decide_eq_true. congruence.
Qed.

(** ** The volume *)

(** X18.  The volume of a state whose system is consistent with it is
    defined exactly when the system has no barostat and OpenMM takes it
    for periodic; it is then computed from the default box vectors of
    the system.  Reading it changes nothing. *)
Theorem volume_property box_volume σ self st s :
  states σ !! self = Some st → systems σ !! _system st = Some s →
  consistent (_temperature st) (forces s) →
  get_volume omm box_volume self σ =
  (Return match barostats (forces s) with
          | [] => if uses_pbc omm s
                  then Some (box_volume (box_vectors s))
                  else None
          | _ => None
          end, σ).
Proof.
  intros Hst Hs Hc. unfold get_volume.
  rewrite (bind_Return _ _ _ _ _ (get_pressure_consistent _ _ _ _ Hst Hs Hc)).
  unfold barostat_pressure.
  destruct Hc as [Hb|(p & n & Hb)]; rewrite Hb; [|reflexivity].
  rewrite (bind_Return _ _ _ _ _ (read_state_Some _ _ _ Hst)).
  unfold usesPeriodicBoundaryConditions, getDefaultPeriodicBoxVectors.
  rewrite bind_assoc, (bind_Return _ _ _ _ _ (read_system_Some _ _ _ Hs)).
  rewrite bind_ret. destruct (uses_pbc omm s); cbn [negb]; [|reflexivity].
  rewrite bind_assoc, (bind_Return _ _ _ _ _ (read_system_Some _ _ _ Hs)).
  reflexivity.
Qed.

(** ** Setting the temperature of an integrator *)


(** ** The exception *)

(** X20.  The message of a [ThermodynamicsError] is the message of its
    code, whatever further arguments are given, but for
    [UNSUPPORTED_BAROSTAT]: there the first argument is put in the
    place of the braces, and building the exception with no argument
    ends with [IndexError]. *)
Theorem thermodynamics_error_message {A} code args σ :
  (code ≠ UNSUPPORTED_BAROSTAT →
   raise_ThermodynamicsError (A := A) code args σ
   = (Raise (ThermodynamicsError code (error_messages code)), σ)) ∧
  (code = UNSUPPORTED_BAROSTAT →
   raise_ThermodynamicsError (A := A) code args σ
   = (Raise match args with
            | [] => IndexError
            | name :: _ =>
                ThermodynamicsError code
                  ("Found unsupported barostat " +:+ (name +:+ " in system."))
            end, σ)).
Proof.
  split.
  - intros Hne. destruct code; try reflexivity. contradiction.
  - intros ->. destruct args; reflexivity.
Qed.

(** ** What the setters write *)



(** X22.  The setters of [temperature] and [pressure], whatever their
    outcome, allocate nothing and write nothing but the state and the
    system it owns: every other system, the caller's among them, and
    every other state is as it was. *)
Theorem setters_frame σ self st s r σ' :
  states σ !! self = Some st → systems σ !! _system st = Some s →
  (∃ v, set_temperature omm self v σ = (r, σ')) ∨
  (∃ P, set_pressure omm self P σ = (r, σ')) →
  dom (systems σ') = dom (systems σ) ∧
  dom (states σ') = dom (states σ) ∧
  (∀ l, l ≠ _system st → systems σ' !! l = systems σ !! l) ∧
  (∀ x, x ≠ self → states σ' !! x = states σ !! x).
Proof.
  intros Hst Hs [[v H]|[P H]].
  - destruct (set_temperature_effect _ _ _ _ _ _ _ Hst Hs H) as (s' & -> & _).
    cbn [systems states]. split_and!.
    + apply dom_insert_lookup_L. eauto.
    + apply dom_insert_lookup_L. eauto.
    + intros l Hl. apply lookup_insert_ne. congruence.
    + intros x Hx. apply lookup_insert_ne. congruence.
  - destruct (set_pressure_effect _ _ _ _ _ _ _ Hst Hs H) as (s' & -> & _).
    cbn [systems states]. split_and!.
    + apply dom_insert_lookup_L. eauto.
    + reflexivity.
    + intros l Hl. apply lookup_insert_ne. congruence.
    + reflexivity.
Qed.

(** X23.  Reading the temperature, the pressure or the volume of a
    state, looking for the barostat of a system, checking a system or
    an integrator against a state and setting the temperature of an
    integrator write nothing into the store, whatever it holds and
    whatever the outcome. *)
Theorem observers_read_only box_volume self system integrator :
  read_only (get_temperature self) ∧
  read_only (get_pressure self) ∧
  read_only (get_volume omm box_volume self) ∧
  read_only (_find_barostat system) ∧
  read_only (_check_system_consistency omm self system) ∧
  read_only (_check_internal_consistency omm self) ∧
  read_only (_is_integrator_consistent self integrator) ∧
  read_only (_set_integrator_temperature self integrator).
Proof.
  split_and!.
  - apply read_only_get_temperature.
  - apply read_only_get_pressure.
  - unfold get_volume, usesPeriodicBoundaryConditions,
      getDefaultPeriodicBoxVectors. read_only.
  - apply read_only_find_barostat.
  - apply read_only_check_system_consistency.
  - unfold _check_internal_consistency.
    apply read_only_bind; [apply read_only_read_state|].
    intros st. apply read_only_check_system_consistency.
  - unfold _is_integrator_consistent, getCurrentIntegrator, getIntegrator,
      integrator_getTemperature. read_only.
  - unfold _set_integrator_temperature, integrator_setTemperature. read_only.
Qed.

End Properties.

(** * The module at work *)

Lemma uncached_coherent omm σ self st :
  states σ !! self = Some st →
  _cached_standard_system_hash st = None → coherent omm σ self.
Proof.
  intros Hst Hh st' s h Hst' _ Hh'.
  rewrite Hst in Hst'. injection Hst' as <-. congruence.
Qed.

Lemma npt_store_invariant : invariant npt_store 0%nat.
Proof.
  apply valid_invariant.
  apply (construction_valid openmm_7_1 caller_store 0%nat water_box_npt
           300 None); vm_compute; reflexivity.
Qed.

Lemma two_states_invariant_npt : invariant two_states 0%nat.
Proof.
  apply valid_invariant. exists npt_state, water_box_npt.
  split_and!; [vm_compute; reflexivity|vm_compute; reflexivity|].
  right. exists 1, 25. reflexivity.
Qed.

Lemma two_states_invariant_nvt : invariant two_states 1%nat.
Proof.
  apply valid_invariant. exists nvt_state, water_box.
  split_and!; [vm_compute; reflexivity|vm_compute; reflexivity|].
  left. reflexivity.
Qed.

Lemma vacuum_store_invariant : invariant vacuum_store 0%nat.
Proof.
  apply valid_invariant.
  apply (construction_valid openmm_7_1 caller_store 2%nat vacuum
           300 None); vm_compute; reflexivity.
Qed.

(** ** C1 *)



(** ** C2 *)


(** ** C3 *)

Lemma system_assignment_failure_witness :
  set_system openmm_7_1 0%nat 3%nat npt_store
    = (Raise multiple_barostats, npt_store) ∧
  (set_system openmm_7_1 0%nat 3%nat npt_store).2 = npt_store.
Proof.
  split; [vm_compute; reflexivity|].
  apply (system_assignment_failure openmm_7_1 npt_store 0%nat 3%nat
           MULTIPLE_BAROSTATS "System has multiple barostats.").
  vm_compute. reflexivity.
Defined.

(** ** C4 *)

Lemma barostat_discovery_witness :
  systems caller_store !! 4%nat = Some anisotropic ∧
  ∃ message,
    _find_barostat 4%nat caller_store =
      (Raise (ThermodynamicsError UNSUPPORTED_BAROSTAT message),
       caller_store) ∧
    contains "MonteCarloAnisotropicBarostat" message = true.
Proof.
  split; [vm_compute; reflexivity|].
  destruct (barostat_discovery caller_store 4%nat anisotropic)
    as (_ & _ & H); [vm_compute; reflexivity|].
  apply (H (OtherForce "MonteCarloAnisotropicBarostat" false "p=1,1,1"));
    [vm_compute; reflexivity|vm_compute; discriminate].
Defined.

(** ** Removing the barostat *)

Lemma pressure_removal_witness :
  ∃ σ' s',
    set_pressure openmm_7_1 0%nat None npt_store = (Return tt, σ') ∧
    systems σ' !! _system npt_state = Some s' ∧
    barostats (forces s') = [] ∧
    standard s' = standard water_box_npt ∧
    get_pressure 0%nat σ' = (Return None, σ').
Proof.
  destruct (pressure_removal openmm_7_1 npt_store 0%nat npt_state
              water_box_npt) as (H & _).
  - apply npt_store_invariant.
  - vm_compute. reflexivity.
  - vm_compute. reflexivity.
  - exact H.
Defined.

(** ** C6 *)

(** A state at 300 K over the barostated box and a state at 310 K over
    the box without barostat are compatible. *)
Lemma state_compatibility_witness :
  standard water_box_npt = standard water_box ∧
  (is_state_compatible openmm_7_1 0%nat 1%nat two_states).1 = Return true.
Proof.
  split; [vm_compute; reflexivity|].
  destruct (state_compatibility openmm_7_1 two_states 0%nat 1%nat
              npt_state water_box_npt nvt_state water_box) as (_ & _ & _ & H).
  - apply two_states_invariant_npt.
  - apply (uncached_coherent _ _ _ npt_state); vm_compute; reflexivity.
  - vm_compute. reflexivity.
  - vm_compute. reflexivity.
  - apply two_states_invariant_nvt.
  - apply (uncached_coherent _ _ _ nvt_state); vm_compute; reflexivity.
  - vm_compute. reflexivity.
  - vm_compute. reflexivity.
  - apply H. vm_compute. reflexivity.
Defined.

(** ** C7 *)

(** C7.  With OpenMM 7.1 the bonded system, a bond force and a
    [MonteCarloBarostat] at 1 atm and 300 K, does not use periodic
    boundary conditions.  The constructor accepts it at 300 K; the
    state then reports the pressure of the barostat, 1 atm, not [None],
    and its pressure setter refuses that same pressure with
    [BAROSTATED_NONPERIODIC]. *)
Theorem nonperiodic_barostat_accepted :
  uses_pbc openmm_7_1 bonded_npt = false ∧
  systems caller_store !! 5%nat = Some bonded_npt ∧
  __init__ openmm_7_1 5%nat 300 None caller_store
    = (Return 0%nat, bonded_store) ∧
  states bonded_store !! 0%nat = Some npt_state ∧
  systems bonded_store !! _system npt_state = Some bonded_npt ∧
  get_pressure 0%nat bonded_store = (Return (Some 1), bonded_store) ∧
  get_pressure 0%nat bonded_store ≠ (Return None, bonded_store) ∧
  set_pressure openmm_7_1 0%nat (Some 1) bonded_store
    = (Raise barostated_nonperiodic, bonded_store).
Proof.
  split_and!; try (vm_compute; reflexivity).
  intros H. vm_compute in H. discriminate H.
Qed.

(** Before OpenMM 7.1 a system with a barostat uses periodic boundary
    conditions. *)
Lemma openmm_7_0_barostat_periodic s p t n :
  MonteCarloBarostat p t n ∈ forces s → uses_pbc openmm_7_0 s = true.
Proof.
  intros Hin. apply existsb_exists. exists (MonteCarloBarostat p t n).
  split; [apply list_elem_of_In, Hin|reflexivity].
Qed.

Lemma nonperiodic_state_pressure_witness :
  uses_pbc openmm_7_0 vacuum = false ∧
  (∀ v, set_pressure openmm_7_0 0%nat (Some v) vacuum_store
        = (Raise barostated_nonperiodic, vacuum_store)) ∧
  get_pressure 0%nat vacuum_store = (Return None, vacuum_store).
Proof.
  split; [vm_compute; reflexivity|].
  destruct (nonperiodic_state_pressure openmm_7_0 vacuum_store 0%nat npt_state
              vacuum) as (H1 & _ & H3).
  - vm_compute. reflexivity.
  - vm_compute. reflexivity.
  - left. vm_compute. reflexivity.
  - vm_compute. reflexivity.
  - split; [exact H1|]. apply H3. apply openmm_7_0_barostat_periodic.
Defined.

(** ** C9 *)

Lemma create_context_integrator_witness :
  states npt_store !! 0%nat = Some npt_state ∧
  ∃ message σ',
    create_context 0%nat (SimpleIntegrator "LangevinIntegrator" (Some 310))
      None npt_store
    = (Raise (ThermodynamicsError INCONSISTENT_INTEGRATOR message), σ').
Proof.
  split; [vm_compute; reflexivity|].
  destruct (create_context_integrator npt_store 0%nat npt_state
              water_box_npt
              (SimpleIntegrator "LangevinIntegrator" (Some 310)) None)
    as ([_ H] & _).
  - vm_compute. reflexivity.
  - vm_compute. reflexivity.
  - apply H. exists 310. split; [reflexivity|]. vm_compute. discriminate.
Defined.

(** ** C10 *)

Lemma setters_keep_standard_hash_witness :
  ∃ st' s',
    states (set_temperature openmm_7_1 0%nat 310 npt_store).2 !! 0%nat
      = Some st' ∧
    systems (set_temperature openmm_7_1 0%nat 310 npt_store).2 !! _system st'
      = Some s' ∧
    _cached_standard_system_hash st'
      = _cached_standard_system_hash npt_state ∧
    (_get_standard_system_hash openmm_7_1 (_system npt_state) npt_store).1
      = Return (system_hash openmm_7_1 water_box_npt) ∧
    (_get_standard_system_hash openmm_7_1 (_system st')
       (set_temperature openmm_7_1 0%nat 310 npt_store).2).1
      = Return (system_hash openmm_7_1 water_box_npt) ∧
    (coherent openmm_7_1 npt_store 0%nat →
     coherent openmm_7_1
       (set_temperature openmm_7_1 0%nat 310 npt_store).2 0%nat).
Proof.
  apply (setters_keep_standard_hash openmm_7_1 npt_store 0%nat npt_state
           water_box_npt
           (set_temperature openmm_7_1 0%nat 310 npt_store).1).
  - apply npt_store_invariant.
  - vm_compute. reflexivity.
  - vm_compute. reflexivity.
  - left. exists 310. vm_compute. reflexivity.
Defined.

(** ** Further runs *)

Lemma two_states_ready_npt :
  ready openmm_7_1 two_states 0%nat npt_state water_box_npt.
Proof.
  unfold ready. split_and!.
  - vm_compute. reflexivity.
  - vm_compute. reflexivity.
  - vm_compute. lia.
  - intros h H. discriminate H.
Qed.

Lemma two_states_ready_nvt :
  ready openmm_7_1 two_states 1%nat nvt_state water_box.
Proof.
  unfold ready. split_and!.
  - vm_compute. reflexivity.
  - vm_compute. reflexivity.
  - vm_compute. lia.
  - intros h H. discriminate H.
Qed.

Lemma held_exactly_in_range v : 0 < v ≤ 9007199254740992 → held_exactly v.
Proof. unfold held_exactly. change (2 ^ 53) with 9007199254740992. lia. Qed.

Lemma mixed_store_invariant : invariant mixed_store 0%nat.
Proof.
  apply valid_invariant.
  apply (construction_valid openmm_7_1 mixed_caller_store 0%nat mixed_box
           300 None); vm_compute; reflexivity.
Qed.

(** The barostat of the barostated box is its third force. *)
Lemma find_barostat_index_sound_witness :
  _find_barostat_index 0%nat caller_store
    = (Return (Some 2%nat), caller_store) ∧
  ∃ f, forces water_box_npt !! 2%nat = Some f ∧
       barostats (forces water_box_npt) = [f] ∧
       ∀ j g, forces water_box_npt !! j = Some g →
              is_barostat g = true → j = 2%nat.
Proof.
  split; [vm_compute; reflexivity|].
  destruct (find_barostat_index_sound caller_store 0%nat water_box_npt
              (Return (Some 2%nat)) caller_store) as [_ H].
  - vm_compute. reflexivity.
  - vm_compute. reflexivity.
  - exact H.
Defined.

Lemma get_standard_system_copy_witness :
  _get_standard_system 0%nat caller_store =
    (Return (fresh (dom (systems caller_store))),
     mkStore (<[fresh (dom (systems caller_store))
                := standard water_box_npt]> (systems caller_store))
       (states caller_store)) ∧
  standard water_box_npt = water_box.
Proof.
  split; [|vm_compute; reflexivity].
  destruct (get_standard_system_copy caller_store 0%nat water_box_npt)
    as (_ & H & _).
  - vm_compute. reflexivity.
  - apply H. vm_compute. lia.
Defined.

Lemma standard_system_hash_once_witness :
  ∃ σ1,
    _standard_system_hash openmm_7_1 0%nat two_states
      = (Return (system_hash openmm_7_1 water_box_npt), σ1) ∧
    _standard_system_hash openmm_7_1 0%nat σ1
      = (Return (system_hash openmm_7_1 water_box_npt), σ1).
Proof.
  apply (standard_system_hash_once openmm_7_1 two_states 0%nat npt_state
           water_box_npt).
  unfold ready. split_and!.
  - vm_compute. reflexivity.
  - vm_compute. reflexivity.
  - vm_compute. lia.
  - intros h H. discriminate H.
Defined.

Lemma system_getter_copy_witness :
  let copy := fresh (dom (systems npt_store)) in
  get_system 0%nat npt_store =
    (Return copy,
     mkStore (<[copy := water_box_npt]> (systems npt_store))
       (states npt_store)) ∧
  systems npt_store !! copy = None ∧
  ∀ s2, get_pressure 0%nat
          (mkStore (<[copy := s2]> (systems npt_store)) (states npt_store))
        = (Return (barostat_pressure (forces water_box_npt)),
           mkStore (<[copy := s2]> (systems npt_store)) (states npt_store)).
Proof.
  apply (system_getter_copy npt_store 0%nat npt_state water_box_npt).
  - apply npt_store_invariant.
  - vm_compute. reflexivity.
  - vm_compute. reflexivity.
Defined.

(** The state over the box without barostat is given the caller's box
    again. *)
Lemma system_assignment_copy_witness :
  let σ' := (set_system openmm_7_1 1%nat 1%nat two_states).2 in
  let copy := fresh (dom (systems two_states)) in
  systems two_states !! copy = None ∧
  σ' = mkStore (<[copy := water_box]> (systems two_states))
         (<[1%nat := mkState copy (_temperature nvt_state) None]>
            (states two_states)) ∧
  systems σ' !! 1%nat = Some water_box.
Proof.
  apply (system_assignment_copy openmm_7_1 two_states 1%nat nvt_state 1%nat
           water_box).
  - vm_compute. reflexivity.
  - vm_compute. reflexivity.
  - vm_compute. reflexivity.
Defined.

Lemma system_assignment_recomputes_hash_witness :
  (_standard_system_hash openmm_7_1 1%nat
     (set_system openmm_7_1 1%nat 1%nat two_states).2).1
  = Return (system_hash openmm_7_1 water_box).
Proof.
  apply (system_assignment_recomputes_hash openmm_7_1 two_states 1%nat
           nvt_state 1%nat water_box).
  - vm_compute. reflexivity.
  - vm_compute. reflexivity.
  - vm_compute. reflexivity.
Defined.

(** The state at 300 K and 1 atm accepts the caller's barostated box,
    whose barostat is at 300 K and 1 atm. *)
Lemma system_assignment_outcome_witness :
  barostats (forces water_box_npt) = [MonteCarloBarostat 1 300 25] ∧
  (set_system openmm_7_1 0%nat 0%nat npt_store).1 = Return tt.
Proof.
  split; [vm_compute; reflexivity|].
  destruct (system_assignment_outcome openmm_7_1 npt_store 0%nat npt_state
              water_box_npt 0%nat water_box_npt) as (_ & H & _).
  - apply npt_store_invariant.
  - vm_compute. reflexivity.
  - vm_compute. reflexivity.
  - vm_compute. reflexivity.
  - rewrite (H 1 300 25 eq_refl). vm_compute. reflexivity.
Defined.

Lemma temperature_assignment_roundtrip_witness :
  ∃ σ',
    set_temperature openmm_7_1 0%nat 310 npt_store = (Return tt, σ') ∧
    get_temperature 0%nat σ' = (Return 310, σ') ∧
    systems σ' !! _system npt_state = Some (retargeted 310 water_box_npt) ∧
    (get_pressure 0%nat σ').1 = (get_pressure 0%nat npt_store).1.
Proof.
  apply (temperature_assignment_roundtrip openmm_7_1 npt_store 0%nat
           npt_state water_box_npt 310).
  - apply npt_store_invariant.
  - vm_compute. reflexivity.
  - vm_compute. reflexivity.
  - apply held_exactly_in_range. lia.
Defined.

Lemma internal_consistency_witness :
  _check_internal_consistency openmm_7_1 0%nat npt_store =
  (match barostats (forces water_box_npt) with
   | [] => Return tt
   | _ => if existsb nonperiodic_nonbonded (forces water_box_npt)
          then Raise barostated_nonperiodic else Return tt
   end, npt_store).
Proof.
  apply (internal_consistency openmm_7_1 npt_store 0%nat npt_state
           water_box_npt).
  - apply npt_store_invariant.
  - vm_compute. reflexivity.
  - vm_compute. reflexivity.
Defined.

Lemma pressure_assignment_unchecked_witness :
  ∃ σ',
    set_pressure openmm_7_1 0%nat (Some 2) mixed_store = (Return tt, σ') ∧
    (∃ p, get_pressure 0%nat σ' = (Return (Some p), σ')) ∧
    _check_internal_consistency openmm_7_1 0%nat σ'
      = (Raise barostated_nonperiodic, σ').
Proof.
  apply (pressure_assignment_unchecked openmm_7_1 mixed_store 0%nat
           mixed_state mixed_box 2).
  - apply mixed_store_invariant.
  - vm_compute. reflexivity.
  - vm_compute. reflexivity.
  - apply held_exactly_in_range. simpl. lia.
  - apply held_exactly_in_range. lia.
  - vm_compute. reflexivity.
  - vm_compute. reflexivity.
Defined.

(** A state at 310 K and 2 atm over the barostated box. *)
Lemma constructor_outcome_witness :
  (__init__ openmm_7_1 0%nat 310 (Some 2) caller_store).1 = Return 0%nat.
Proof.
  rewrite (constructor_outcome openmm_7_1 caller_store 0%nat water_box_npt
             310 (Some 2)).
  - vm_compute. reflexivity.
  - vm_compute. reflexivity.
  - apply held_exactly_in_range. lia.
  - intros v [= <-]. apply held_exactly_in_range. lia.
  - right. exists 1, 300, 25. vm_compute. reflexivity.
Defined.

Lemma constructor_refuses_witness :
  (__init__ openmm_7_1 3%nat 300 None caller_store).1
    = Raise multiple_barostats ∧
  (__init__ openmm_7_1 4%nat 300 None caller_store).1
    = Raise (unsupported_barostat "MonteCarloAnisotropicBarostat").
Proof.
  split.
  - destruct (constructor_refuses openmm_7_1 caller_store 3%nat two_barostats
                300 None) as [H _].
    + vm_compute. reflexivity.
    + apply H. vm_compute. lia.
  - destruct (constructor_refuses openmm_7_1 caller_store 4%nat anisotropic
                300 None) as [_ H].
    + vm_compute. reflexivity.
    + apply (H (OtherForce "MonteCarloAnisotropicBarostat" false "p=1,1,1")).
      * vm_compute. reflexivity.
      * vm_compute. discriminate.
Defined.

Lemma constructor_never_inconsistent_witness :
  (__init__ openmm_7_1 0%nat 310 (Some 2) caller_store).1
  ≠ Raise inconsistent_barostat.
Proof.
  apply (constructor_never_inconsistent openmm_7_1 caller_store 0%nat
           water_box_npt 310 (Some 2)).
  - vm_compute. reflexivity.
  - apply held_exactly_in_range. lia.
  - intros v [= <-]. apply held_exactly_in_range. lia.
Defined.

Lemma constructor_result_witness :
  get_temperature 0%nat npt_store = (Return 300, npt_store) ∧
  ∃ st' s',
    states npt_store !! 0%nat = Some st' ∧
    systems npt_store !! _system st' = Some s' ∧
    _cached_standard_system_hash st' = None ∧
    standard s' = standard water_box_npt ∧
    consistent 300 (forces s') ∧
    get_pressure 0%nat npt_store
      = (Return (barostat_pressure (forces s')), npt_store) ∧
    barostat_pressure (forces s') = barostat_pressure (forces water_box_npt).
Proof.
  apply (constructor_result openmm_7_1 caller_store 0%nat water_box_npt 300
           None 0%nat npt_store).
  - vm_compute. reflexivity.
  - apply held_exactly_in_range. lia.
  - intros v [=].
  - vm_compute. reflexivity.
Defined.

(** The state over the barostated box and a context over the caller's
    box without barostat. *)
Lemma context_compatibility_witness :
  (is_context_compatible openmm_7_1 0%nat
     (mkContext 1%nat (SimpleIntegrator "VerletIntegrator" None) None)
     two_states).1
  = Return (bool_decide (system_hash openmm_7_1 water_box_npt
                         = system_hash openmm_7_1 water_box)).
Proof.
  destruct (context_compatibility openmm_7_1 two_states 0%nat npt_state
              water_box_npt
              (mkContext 1%nat (SimpleIntegrator "VerletIntegrator" None) None)
              water_box) as [H _].
  - exact two_states_ready_npt.
  - vm_compute. reflexivity.
  - apply H. vm_compute. lia.
Defined.

Lemma created_context_compatible_witness :
  let integrator := SimpleIntegrator "VerletIntegrator" None in
  let σ' := (create_context 1%nat integrator None two_states).2 in
  let context := mkContext 8%nat integrator None in
  (is_context_compatible openmm_7_1 1%nat context σ').1 = Return true ∧
  (is_context_compatible openmm_7_1 0%nat context σ').1
  = (is_state_compatible openmm_7_1 0%nat 1%nat two_states).1.
Proof.
  intros integrator σ' context.
  apply (created_context_compatible openmm_7_1 two_states 0%nat 1%nat
           npt_state water_box_npt nvt_state water_box integrator None
           context σ').
  - exact two_states_ready_npt.
  - exact two_states_ready_nvt.
  - vm_compute. reflexivity.
Defined.

Lemma state_compatibility_transitive_witness :
  (is_state_compatible openmm_7_1 0%nat 0%nat two_states).1 = Return true.
Proof.
  apply (state_compatibility_transitive openmm_7_1 two_states
           0%nat 1%nat 0%nat
           npt_state water_box_npt nvt_state water_box
           npt_state water_box_npt).
  - exact two_states_ready_npt.
  - exact two_states_ready_nvt.
  - exact two_states_ready_npt.
  - vm_compute. reflexivity.
  - vm_compute. reflexivity.
Defined.

(** The volume of the state over the box without barostat, and of the
    state over the barostated box. *)
Lemma volume_property_witness :
  get_volume openmm_7_1 rectangular_volume 1%nat two_states
    = (Return (Some 27), two_states) ∧
  get_volume openmm_7_1 rectangular_volume 0%nat two_states
    = (Return None, two_states).
Proof.
  split.
  - rewrite (volume_property openmm_7_1 rectangular_volume two_states 1%nat
               nvt_state water_box).
    + reflexivity.
    + vm_compute. reflexivity.
    + vm_compute. reflexivity.
    + left. vm_compute. reflexivity.
  - rewrite (volume_property openmm_7_1 rectangular_volume two_states 0%nat
               npt_state water_box_npt).
    + reflexivity.
    + vm_compute. reflexivity.
    + vm_compute. reflexivity.
    + right. exists 1, 25. vm_compute. reflexivity.
Defined.


Lemma thermodynamics_error_message_witness :
  raise_ThermodynamicsError (A := unit) UNSUPPORTED_BAROSTAT [] caller_store
    = (Raise IndexError, caller_store) ∧
  raise_ThermodynamicsError (A := unit) INCONSISTENT_INTEGRATOR [] caller_store
    = (Raise inconsistent_integrator, caller_store).
Proof.
  split.
  - apply (proj2 (thermodynamics_error_message (A := unit)
                    UNSUPPORTED_BAROSTAT [] caller_store)).
    reflexivity.
  - apply (proj1 (thermodynamics_error_message (A := unit)
                    INCONSISTENT_INTEGRATOR [] caller_store)).
    discriminate.
Defined.


(** The temperature of the first state is assigned: the second state,
    its system and the caller's systems stay. *)
Lemma setters_frame_witness :
  let σ' := (set_temperature openmm_7_1 0%nat 310 two_states).2 in
  dom (systems σ') = dom (systems two_states) ∧
  dom (states σ') = dom (states two_states) ∧
  (∀ l, l ≠ _system npt_state → systems σ' !! l = systems two_states !! l) ∧
  (∀ x, x ≠ 0%nat → states σ' !! x = states two_states !! x).
Proof.
  intros σ'.
  apply (setters_frame openmm_7_1 two_states 0%nat npt_state water_box_npt
           (set_temperature openmm_7_1 0%nat 310 two_states).1 σ').
  - vm_compute. reflexivity.
  - vm_compute. reflexivity.
  - left. exists 310. apply surjective_pairing.
Defined.
